(** * Document marshalling and query orchestration of the Chroma JS client

    A shallow embedding of [clients/js/src/Documents.ts] and of
    [ChromaClient.queryDocuments] (with the types of [types.ts] they use),
    followed by the properties of the record codec, of the embedding
    resolver and of the query fan-out/fan-in.

    Conventions of the embedding:
    - a JS [number] is an IEEE-754 binary64, i.e. Rocq's primitive [float];
      the code only stores and forwards numbers, it never computes on them;
    - an optional (or nullish) value is an [option]; both [undefined] and
      [null] are [None], the code treats them alike ([!x], [?.], [??]);
    - an array is a [list]; reading it out of range gives [undefined],
      which is stdpp's lookup [l !! i = None];
    - a JS [Set] is the list of its elements in insertion order;
    - document objects that are written to, and the arrays of documents
      handed across [computeEmbeddings], are references into a heap;
    - an [async] function is a tree of awaited calls ([Prog]), run against
      the answers of the embedding function and of the server. *)

From Stdlib Require Import Floats.PrimFloat.
From stdpp Require Import base option list strings gmap.

Set Default Proof Using "Type".
Local Open Scope string_scope.
Local Open Scope list_scope.

(** ** types.ts *)

Abbreviation number := float.
Abbreviation Embedding := (list number).

(** [Metadata = Record<string, string | number | boolean>] *)
Inductive MetadataValue :=
| MString (s : string)
| MNumber (n : number)
| MBoolean (b : bool).

Abbreviation Metadata := (gmap string MetadataValue).

(** [BaseChromaDoc]: every field optional.  [ChromaDoc], [EmbeddingDoc] and
    [ContentsDoc] are the same object with one field declared required; the
    compiled code does not check the declaration, so one record serves. *)
Record BaseChromaDoc := {
  id : option string;
  embedding : option Embedding;
  metadata : option Metadata;
  contents : option string;
}.

(** The argument object of [parallelArraysToDocs], as it is at run time:
    [ids] is required, the three other arrays may be missing, and an
    element of any array may be nullish ([docsToParallelArrays] pushes
    [doc.embedding] and the like as they are). *)
Record ParallelArrays := {
  ids : list (option string);
  embeddings : option (list (option Embedding));
  documents : option (list (option string));
  metadatas : option (list (option Metadata));
}.

(** ** Errors and results *)

(** [new Error(message)]: the only exception the modelled code constructs. *)
Inductive JsError := Error (message : string).

Inductive result (A : Type) :=
| Ok (a : A)
| Throw (e : JsError).
Arguments Ok {A} a.
Arguments Throw {A} e.

Definition result_bind {A B} (r : result A) (f : A -> result B) : result B :=
  match r with
  | Ok a => f a
  | Throw e => Throw e
  end.

(** ** JS helpers *)

(** [Array.prototype.join]: a nullish element is rendered as the empty
    string. *)
Definition joinElement (x : option string) : string := default "" x.

Fixpoint join (sep : string) (xs : list (option string)) : string :=
  match xs with
  | [] => ""
  | x :: rest =>
      match rest with
      | [] => joinElement x
      | _ :: _ => joinElement x +:+ sep +:+ join sep rest
      end
  end.

(** [Set.prototype.has] and [Set.prototype.add] on a set of ids. *)
Definition Set_has (s : list (option string)) (x : option string) : bool :=
  bool_decide (x ∈ s).

Definition Set_add (s : list (option string)) (x : option string)
  : list (option string) :=
  if Set_has s x then s else s ++ [x].

(** [arr?.[index]] for an optional array. *)
Definition atIndex {A} (arr : option (list A)) (index : nat) : option A :=
  match arr with
  | Some a => a !! index
  | None => None
  end.

(** [arr?.[index]] for an optional array of possibly nullish elements. *)
Definition optIndex {A} (arr : option (list (option A))) (index : nat)
  : option A :=
  mjoin (atIndex arr index).

(** ** Documents.ts: docsToParallelArrays *)

(** The local variables of the loop: the four arrays of [result], [idSet]
    and [duplicateIds]. *)
Record EncodeState := {
  result_ids : list (option string);
  result_embeddings : list (option Embedding);
  result_documents : list (option string);
  result_metadatas : list (option Metadata);
  idSet : list (option string);
  duplicateIds : list (option string);
}.

Definition encodeInit : EncodeState :=
  {| result_ids := []; result_embeddings := []; result_documents := [];
     result_metadatas := []; idSet := []; duplicateIds := [] |}.

(** One iteration of [for (const doc of documents)].  The body never calls
    [idSet.add], so [idSet] is carried along unchanged. *)
Definition encodeStep (st : EncodeState) (doc : BaseChromaDoc) : EncodeState :=
  if Set_has (idSet st) (id doc) then
    {| result_ids := result_ids st;
       result_embeddings := result_embeddings st;
       result_documents := result_documents st;
       result_metadatas := result_metadatas st;
       idSet := idSet st;
       duplicateIds := Set_add (duplicateIds st) (id doc) |}
  else if bool_decide (0 < length (duplicateIds st)) then st
  else
    {| result_ids := result_ids st ++ [id doc];
       result_embeddings := result_embeddings st ++ [embedding doc];
       result_documents := result_documents st ++ [contents doc];
       result_metadatas := result_metadatas st ++ [metadata doc];
       idSet := idSet st;
       duplicateIds := duplicateIds st |}.

Definition encodeResult (st : EncodeState) : ParallelArrays :=
  {| ids := result_ids st;
     embeddings := Some (result_embeddings st);
     documents := Some (result_documents st);
     metadatas := Some (result_metadatas st) |}.

Definition docsToParallelArrays (docs : list BaseChromaDoc)
  : result ParallelArrays :=
  let st := foldl encodeStep encodeInit docs in
  if bool_decide (0 < length (duplicateIds st)) then
    Throw (Error ("Duplicate ids found: " +:+ join ", " (duplicateIds st)))
  else Ok (encodeResult st).

(** ** Documents.ts: parallelArraysToDocs *)

(** [arr && ids.length !== arr.length]; an array is truthy whatever its
    length, so the left operand only tests presence. *)
Definition lengthDiffers {A B} (ids0 : list A) (arr : option (list B)) : bool :=
  match arr with
  | Some a => bool_decide (length ids0 ≠ length a)
  | None => false
  end.

Definition lengthMismatchMessage : string :=
  "ids, embeddings, metadatas, and documents must all be the same length".

Definition parallelArraysToDocs (pa : ParallelArrays)
  : result (list BaseChromaDoc) :=
  if lengthDiffers (ids pa) (embeddings pa)
     || lengthDiffers (ids pa) (metadatas pa)
     || lengthDiffers (ids pa) (documents pa)
  then Throw (Error lengthMismatchMessage)
  else
    Ok (imap (fun index id0 =>
                {| id := id0;
                   embedding := optIndex (embeddings pa) index;
                   contents := optIndex (documents pa) index;
                   metadata := optIndex (metadatas pa) index |})
             (ids pa)).

(** ** The heap

    [computeEmbeddings] writes into the document objects it is given and
    returns the array it was given, and [queryDocuments] hands out
    references to the query documents it normalized.  So the documents and
    the arrays of documents that cross these functions live in a heap: the
    object with reference [l] is [σ !! l] in the object store [σ], the
    array with reference [a] is [arrays h !! a], and a fresh object or
    array is appended at the end of its list.  [docsToParallelArrays] and
    [parallelArraysToDocs] only read their argument and build fresh
    objects that nothing mutates afterwards; they work on the field
    values. *)

Abbreviation loc := nat.
Abbreviation store := (list BaseChromaDoc).

(** An element of a [documents] array at run time: a reference to a
    document object or, when [toArray] spreads a raw query vector, one of
    its numbers. *)
Inductive DocValue :=
| DocRef (l : loc)
| DocNumber (n : number).

(** No modelled statement writes to an array of documents once it is
    built, so an array of the heap is the list of its elements. *)
Record heap := {
  objects : store;
  arrays : list (list DocValue);
}.

(** The elements of the array [a].  A reference outside the heap has no
    counterpart in JS; it reads as the empty array, and the statements
    below name the array that is allocated at [a]. *)
Definition arrayElements (h : heap) (a : loc) : list DocValue :=
  default [] (arrays h !! a).

(** [doc.field]: reading a property of a number primitive gives
    [undefined]. *)
Definition getField {A} (field : BaseChromaDoc -> option A) (σ : store)
    (doc : DocValue) : option A :=
  match doc with
  | DocRef l => σ !! l ≫= field
  | DocNumber _ => None
  end.

Definition withEmbedding (e : option Embedding) (d : BaseChromaDoc)
  : BaseChromaDoc :=
  {| id := id d; embedding := e; metadata := metadata d;
     contents := contents d |}.

(** [doc.embedding = e].  On a number primitive the assignment has no
    effect on any object; [computeEmbeddings] never reaches it there
    (lemma [validated_is_object]). *)
Definition setEmbedding (σ : store) (doc : DocValue) (e : option Embedding)
  : store :=
  match doc with
  | DocRef l => alter (withEmbedding e) l σ
  | DocNumber _ => σ
  end.

(** [!!s] for an optional string: the empty string is falsy. *)
Definition truthy (s : option string) : bool :=
  match s with
  | Some s0 => negb (String.eqb s0 "")
  | None => false
  end.

(** ** Effects

    A computation either returns, throws, or awaits one of the two
    collaborators: the embedding function of the collection
    ([embeddingFunction.generate(texts)]) or the generated API
    ([api.getNearestNeighbors(...).then(handleSuccess)]).  The continuation
    of an awaited call receives the fulfilled value; a rejection is not
    caught anywhere in the modelled code and ends the computation
    (see [run]). *)

Inductive IncludeEnum := Documents | Embeddings | Metadatas | Distances.

(** [LiteralValue | ListLiteralValue]; a [LiteralValue] is a string, a number
    or a boolean, as a metadata value is. *)
Inductive WhereOperand :=
| Literal (v : MetadataValue)
| ListLiteral (vs : list MetadataValue).

(** [Where = BaseWhere | LogicalWhere], objects as association lists.  The
    filters are passed to the server as they are; nothing recurses on
    them. *)
Local Unset Elimination Schemes.
Inductive Where :=
| BaseWhere (fields : list (string * (MetadataValue + list (string * WhereOperand))))
| LogicalWhere (clauses : list (string * list Where)).

Inductive WhereDocument :=
| WhereDocumentExpr (entries : list (string * (MetadataValue + list WhereDocument))).
Local Set Elimination Schemes.

(** The body of the similarity request. *)
Record QueryRequest := {
  query_embeddings : list (option Embedding);
  where_ : option Where;
  n_results : number;
  where_document : option WhereDocument;
  include : option (list IncludeEnum);
}.

(** [QueryResponse].  The three optional-chained fields are options: the
    code reads [response.documents?.[index]] and
    [response.metadatas?.[index]] as it reads [response.embeddings]. *)
Record QueryResponse := {
  response_ids : list (list string);
  response_embeddings : option (list (list Embedding));
  response_documents : option (list (list (option string)));
  response_metadatas : option (list (list (option Metadata)));
  response_distances : option (list (list number));
  included : list IncludeEnum;
}.

Inductive Prog (A : Type) :=
| Return (a : A)
| Raise (e : JsError)
| Generate (texts : list (option string)) (k : list Embedding -> Prog A)
| GetNearestNeighbors (collectionId : string) (request : QueryRequest)
    (k : QueryResponse -> Prog A).
Arguments Return {A} a.
Arguments Raise {A} e.
Arguments Generate {A} texts k.
Arguments GetNearestNeighbors {A} collectionId request k.

Fixpoint prog_bind {A B} (p : Prog A) (f : A -> Prog B) : Prog B :=
  match p with
  | Return a => f a
  | Raise e => Raise e
  | Generate texts k => Generate texts (fun v => prog_bind (k v) f)
  | GetNearestNeighbors c r k =>
      GetNearestNeighbors c r (fun v => prog_bind (k v) f)
  end.

Declare Scope prog_scope.
Delimit Scope prog_scope with prog.
Notation "x <- p ;; q" := (prog_bind p (fun x => q))
  (at level 100, p at next level, right associativity) : prog_scope.

(** [await embeddingFunction.generate(texts)] and
    [await api.getNearestNeighbors(...).then(handleSuccess)]. *)
Definition awaitGenerate (texts : list (option string))
  : Prog (list Embedding) :=
  Generate texts Return.

Definition awaitGetNearestNeighbors (collectionId : string)
    (request : QueryRequest) : Prog QueryResponse :=
  GetNearestNeighbors collectionId request Return.

Definition liftResult {A} (r : result A) : Prog A :=
  match r with
  | Ok a => Return a
  | Throw e => Raise e
  end.

(** The collaborators of one run: how the embedding function and the
    server answer.  [Throw] is a rejected promise. *)
Record Environment := {
  generate : list (option string) -> result (list Embedding);
  getNearestNeighbors : string -> QueryRequest -> result QueryResponse;
}.

Fixpoint run {A} (env : Environment) (p : Prog A) : result A :=
  match p with
  | Return a => Ok a
  | Raise e => Throw e
  | Generate texts k =>
      match generate env texts with
      | Ok v => run env (k v)
      | Throw e => Throw e
      end
  | GetNearestNeighbors c r k =>
      match getNearestNeighbors env c r with
      | Ok v => run env (k v)
      | Throw e => Throw e
      end
  end.

(** The arguments of the calls of [generate] made during a run, in order. *)
Fixpoint generateCalls {A} (env : Environment) (p : Prog A)
  : list (list (option string)) :=
  match p with
  | Return _ | Raise _ => []
  | Generate texts k =>
      texts :: match generate env texts with
               | Ok v => generateCalls env (k v)
               | Throw _ => []
               end
  | GetNearestNeighbors c r k =>
      match getNearestNeighbors env c r with
      | Ok v => generateCalls env (k v)
      | Throw _ => []
      end
  end.

(** ** Documents.ts: computeEmbeddings *)

(** [!doc.contents && !doc.embedding]; an array is truthy, also when
    empty. *)
Definition withoutContentsOrEmbedding (σ : store) (doc : DocValue) : bool :=
  negb (truthy (getField contents σ doc))
  && negb (bool_decide (is_Some (getField embedding σ doc))).

(** [!doc.embedding] *)
Definition missingEmbedding (σ : store) (doc : DocValue) : bool :=
  negb (bool_decide (is_Some (getField embedding σ doc))).

Definition missingContentPrefix : string :=
  "The following documents have neither contents nor embeddings: ".

(** [docsMissingEmbeddings.map((doc, index) => { doc.embedding =
    embeddings[index]; })], from position [index] on. *)
Fixpoint assignEmbeddings (σ : store) (docs : list DocValue)
    (embeddings0 : list Embedding) (index : nat) : store :=
  match docs with
  | [] => σ
  | doc :: rest =>
      assignEmbeddings (setEmbedding σ doc (embeddings0 !! index)) rest
        embeddings0 (S index)
  end.

(** [documents0] is the reference of the [documents] array.  The two
    arrays built by [filter] do not outlive the call and are plain lists.
    Both [return documents] hand back the reference that was given. *)
Definition computeEmbeddings (documents0 : loc) (h : heap)
  : Prog (loc * heap) :=
  let σ := objects h in
  let docsWithoutContentsOrEmbeddings :=
    List.filter (withoutContentsOrEmbedding σ) (arrayElements h documents0) in
  if bool_decide (0 < length docsWithoutContentsOrEmbeddings) then
    Raise (Error (missingContentPrefix
                  +:+ join ", " (getField id σ <$> docsWithoutContentsOrEmbeddings)))
  else
    let docsMissingEmbeddings :=
      List.filter (missingEmbedding σ) (arrayElements h documents0) in
    if bool_decide (length docsMissingEmbeddings = 0) then
      Return (documents0, h)
    else
      (embeddings0 <-
         awaitGenerate (getField contents σ <$> docsMissingEmbeddings) ;;
       Return (documents0,
               {| objects :=
                    assignEmbeddings σ docsMissingEmbeddings embeddings0 0;
                  arrays := arrays h |}))%prog.

(** ** Documents.ts: docQueryToQueryDoc, and the shape of a query *)

(** [DocQuery = string | Embedding | QueryDoc]; a [QueryDoc] is an object
    of the caller, known by its reference. *)
Inductive DocQuery :=
| QueryText (s : string)
| QueryVector (v : Embedding)
| QueryObject (l : loc).

(** [SingleQueryParams.query | MultiQueryParams.query] *)
Inductive Query :=
| Single (q : DocQuery)
| Batch (qs : list DocQuery).

(** What an array handed to [toArray] holds at run time: the queries of a
    batch, or the numbers of a raw vector. *)
Inductive QueryItem :=
| ItemQuery (q : DocQuery)
| ItemNumber (n : number).

(** [Array.isArray(query)]: a raw vector is a JS array as a batch is. *)
Definition isArray (query : Query) : bool :=
  match query with
  | Single (QueryVector _) => true
  | Single _ => false
  | Batch _ => true
  end.

(** Modelled from the spec: [toArray] of [./utils] is not among the
    sources.  The spec has the input normalized to an ordered sequence of
    queries, batch-ness being decided by inspecting the input's shape: an
    input that is an array is taken as it is, any other input becomes the
    one-element sequence holding it. *)
Definition toArray (query : Query) : list QueryItem :=
  match query with
  | Batch qs => ItemQuery <$> qs
  | Single (QueryVector v) => ItemNumber <$> v
  | Single q => [ItemQuery q]
  end.

(** The object literals [{ embedding: v }] and [{ contents: c }]. *)
Definition vectorDoc (v : Embedding) : BaseChromaDoc :=
  {| id := None; embedding := Some v; metadata := None; contents := None |}.

Definition contentsDoc (c : string) : BaseChromaDoc :=
  {| id := None; embedding := None; metadata := None; contents := Some c |}.

(** The three tests in the order of the source.  The two object literals
    are fresh objects; an explicit [QueryDoc] (and anything else that is
    neither an array nor a string) is returned as it is. *)
Definition docQueryToQueryDoc (query : QueryItem) (σ : store)
  : DocValue * store :=
  match query with
  | ItemQuery (QueryVector v) => (DocRef (length σ), σ ++ [vectorDoc v])
  | ItemQuery (QueryText s) => (DocRef (length σ), σ ++ [contentsDoc s])
  | ItemQuery (QueryObject l) => (DocRef l, σ)
  | ItemNumber n => (DocNumber n, σ)
  end.

(** [items.map(docQueryToQueryDoc)], left to right. *)
Fixpoint mapDocQueryToQueryDoc (items : list QueryItem) (σ : store)
  : list DocValue * store :=
  match items with
  | [] => ([], σ)
  | item :: rest =>
      let '(doc, σ1) := docQueryToQueryDoc item σ in
      let '(docs, σ2) := mapDocQueryToQueryDoc rest σ1 in
      (doc :: docs, σ2)
  end.

(** ** ChromaClient.ts: queryDocuments *)

(** The fields of [Collection] that [queryDocuments] reads, the embedding
    function apart: it is the collaborator answering [Generate]. *)
Record Collection := {
  collection_name : string;
  collection_id : string;
}.

Record QueryParams := {
  nResults : option number;
  where_param : option Where;
  whereDocument : option WhereDocument;
  include_param : option (list IncludeEnum);
  query : Query;
}.

Record RankedResult := {
  doc : BaseChromaDoc;
  distance : number;
}.

(** [queryDoc] is [queryDocs[index]]: the object itself, not a copy. *)
Record SingleQueryResult := {
  queryDoc : option DocValue;
  results : list RankedResult;
}.

(** [QueryResult = SingleQueryResult | MultiQueryResult]; the single result
    is [result[0]], which is [undefined] for an empty response. *)
Inductive QueryResult :=
| SingleResult (r : option SingleQueryResult)
| MultiResult (rs : list SingleQueryResult).

(** The argument of [parallelArraysToDocs] for the response entry
    [index]. *)
Definition responseEntry (response : QueryResponse) (index : nat)
    (ids0 : list string) : ParallelArrays :=
  {| ids := Some <$> ids0;
     embeddings :=
       fmap (M:=option) (fmap (M:=list) Some)
         (atIndex (response_embeddings response) index);
     documents := atIndex (response_documents response) index;
     metadatas := atIndex (response_metadatas response) index |}.

(** [response.distances?.[index]?.[i] ?? 0] *)
Definition distanceAt (response : QueryResponse) (index i : nat) : number :=
  default 0%float
    (atIndex (atIndex (response_distances response) index) i).

(** The callback of [response.ids.map]. *)
Definition queryResultEntry (queryDocs : list DocValue)
    (response : QueryResponse) (index : nat) (ids0 : list string)
  : result SingleQueryResult :=
  result_bind (parallelArraysToDocs (responseEntry response index ids0))
    (fun docs =>
       Ok {| queryDoc := queryDocs !! index;
             results := imap (fun i doc0 =>
                                {| doc := doc0;
                                   distance := distanceAt response index i |})
                             docs |}).

(** [xs.map(f)] for a callback that may throw: the first exception ends the
    map.  [index] is the position of the head of [xs]. *)
Fixpoint mapResult {A B} (f : nat -> A -> result B) (index : nat)
    (xs : list A) : result (list B) :=
  match xs with
  | [] => Ok []
  | x :: rest =>
      result_bind (f index x) (fun y =>
      result_bind (mapResult f (S index) rest) (fun ys => Ok (y :: ys)))
  end.

(** [const result: MultiQueryResult = response.ids.map(...)] *)
Definition multiQueryResult (queryDocs : list DocValue)
    (response : QueryResponse) : result (list SingleQueryResult) :=
  mapResult (queryResultEntry queryDocs response) 0 (response_ids response).

(** [Array.isArray(query) ? result : result[0]] *)
Definition shapeResult (query0 : Query) (rs : list SingleQueryResult)
  : QueryResult :=
  if isArray query0 then MultiResult rs else SingleResult (rs !! 0).

Definition queryRequest (params : QueryParams) (h : heap)
    (docsWithEmbeddings : loc) : QueryRequest :=
  {| query_embeddings :=
       getField embedding (objects h) <$> arrayElements h docsWithEmbeddings;
     where_ := where_param params;
     n_results := default 10%float (nResults params);
     where_document := whereDocument params;
     include := include_param params |}.

(** The heap once [toArray(query).map(docQueryToQueryDoc)] has built the
    objects [σ1] and the array [queryDocs], whose reference is
    [length (arrays h)]. *)
Definition withQueryDocs (h : heap) (queryDocs : list DocValue) (σ1 : store)
  : heap :=
  {| objects := σ1; arrays := arrays h ++ [queryDocs] |}.

(** The body of [queryDocuments] after [await this.initPromise]. *)
Definition queryDocuments (collection : Collection) (params : QueryParams)
    (h : heap) : Prog (QueryResult * heap) :=
  let '(elements0, σ1) :=
    mapDocQueryToQueryDoc (toArray (query params)) (objects h) in
  let queryDocs := length (arrays h) in
  (resolved <- computeEmbeddings queryDocs (withQueryDocs h elements0 σ1) ;;
   let '(docsWithEmbeddings, h2) := resolved in
   response <- awaitGetNearestNeighbors (collection_id collection)
                 (queryRequest params h2 docsWithEmbeddings) ;;
   rs <- liftResult (multiQueryResult (arrayElements h2 queryDocs) response) ;;
   Return (shapeResult (query params) rs, h2))%prog.

(** ** Vocabulary of the statements *)

(** Every array that is present is as long as [ids]. *)
Definition lengthsAgree (pa : ParallelArrays) : Prop :=
  (forall a, embeddings pa = Some a -> length a = length (ids pa))
  /\ (forall a, documents pa = Some a -> length a = length (ids pa))
  /\ (forall a, metadatas pa = Some a -> length a = length (ids pa)).

(** Some array that is present is not as long as [ids]. *)
Definition lengthMismatch (pa : ParallelArrays) : Prop :=
  (exists a, embeddings pa = Some a /\ length a <> length (ids pa))
  \/ (exists a, documents pa = Some a /\ length a <> length (ids pa))
  \/ (exists a, metadatas pa = Some a /\ length a <> length (ids pa)).

(** [doc] has neither contents nor an embedding: both fields are absent. *)
Definition neitherContentsNorEmbedding (σ : store) (doc : DocValue) : bool :=
  match getField contents σ doc, getField embedding σ doc with
  | None, None => true
  | _, _ => false
  end.

(** The positions of [docs] whose document has neither. *)
Definition offendingPositions (σ : store) (docs : list DocValue) : list nat :=
  fst <$> List.filter (fun p => neitherContentsNorEmbedding σ p.2)
            (imap pair docs).

(** "The error identifies the offending documents by position when the
    documents carry no id": the positions can be read off the error. *)
Definition errorIdentifiesPositions : Prop :=
  exists locate : JsError -> list nat,
    forall (h : heap) (documents0 : loc) (docs : list DocValue) (e : JsError),
      arrays h !! documents0 = Some docs ->
      (forall d, d ∈ docs -> getField id (objects h) d = None) ->
      computeEmbeddings documents0 h = Raise e ->
      locate e = offendingPositions (objects h) docs.

(** [doc] is the normalized form of the query [q] in the store [σ]: the
    caller's own object for an explicit [QueryDoc], an object holding just
    the text or just the vector otherwise. *)
Definition normalizedTo (σ : store) (q : DocQuery) (doc : DocValue) : Prop :=
  match q with
  | QueryText s => exists l, doc = DocRef l /\ σ !! l = Some (contentsDoc s)
  | QueryVector v => exists l, doc = DocRef l /\ σ !! l = Some (vectorDoc v)
  | QueryObject l => doc = DocRef l
  end.

(** The response with another [distances] field. *)
Definition withDistances (ds : option (list (list number)))
    (response : QueryResponse) : QueryResponse :=
  {| response_ids := response_ids response;
     response_embeddings := response_embeddings response;
     response_documents := response_documents response;
     response_metadatas := response_metadatas response;
     response_distances := ds;
     included := included response |}.

(** "The resolver returns a new sequence": what it returns is not the
    array it was given. *)
Definition resolverReturnsNewSequence : Prop :=
  forall (env : Environment) (h h' : heap) (documents0 returned : loc),
    is_Some (arrays h !! documents0) ->
    run env (computeEmbeddings documents0 h) = Ok (returned, h') ->
    returned <> documents0.

(** ** Sample values *)

(** [{}], a document with no field at all. *)
Definition emptyDoc : BaseChromaDoc :=
  {| id := None; embedding := None; metadata := None; contents := None |}.

(** [{ query: q }], every option left out. *)
Definition queryOnly (q : Query) : QueryParams :=
  {| nResults := None; where_param := None; whereDocument := None;
     include_param := None; query := q |}.

Definition testCollection : Collection :=
  {| collection_name := "test-from-js"; collection_id := "c0" |}.

(** A response for two queries: one neighbour with its distance for the
    first, two neighbours and a single distance for the second. *)
Definition twoEntryResponse : QueryResponse :=
  {| response_ids := [["doc1"]; ["doc2"; "doc1"]];
     response_embeddings := None;
     response_documents := Some [[Some "doc1"]; [Some "doc2"; Some "doc1"]];
     response_metadatas := Some [[None]; [None; None]];
     response_distances := Some [[0.5%float]; [0.25%float]];
     included := [Documents; Metadatas; Distances] |}.

(** A heap with one array, which holds the objects of [σ] in order. *)
Definition oneArray (σ : store) : heap :=
  {| objects := σ; arrays := [imap (fun l _ => DocRef l) σ] |}.

Definition emptyHeap : heap := {| objects := []; arrays := [] |}.

(** Collaborators that answer every call with the same value. *)
Definition constantEnvironment (vectors : list Embedding)
    (response : QueryResponse) : Environment :=
  {| generate := fun _ => Ok vectors;
     getNearestNeighbors := fun _ _ => Ok response |}.

Definition emptyResponse : QueryResponse :=
  {| response_ids := []; response_embeddings := None;
     response_documents := None; response_metadatas := None;
     response_distances := None; included := [] |}.

(** [{ id: i, contents: c }] *)
Definition textDoc (i c : string) : BaseChromaDoc :=
  {| id := Some i; embedding := None; metadata := None; contents := Some c |}.

(** ** ChromaClient.ts: addDocuments, setDocuments, getDocuments

    The write and read paths of the client.  They await the resolver and
    the generated API ([api.add], [api.upsert], [api.aGet], each followed
    by [handleSuccess]); as for [Prog], a continuation receives the
    fulfilled value and a rejection ends the computation. *)

(** What [docsToParallelArrays] reads of an element of [documents]: its
    four fields, as they are in the store at that time. *)
Definition readDoc (σ : store) (doc : DocValue) : BaseChromaDoc :=
  {| id := getField id σ doc;
     embedding := getField embedding σ doc;
     metadata := getField metadata σ doc;
     contents := getField contents σ doc |}.

(** [AddResponse]; the code hands the answer of [api.upsert] back in the
    same way. *)
Record AddResponse := {
  add_error : string;
}.

(** [GetParams.ids : ID | IDs] *)
Inductive IdsParam :=
| OneId (s : string)
| ManyIds (l : list string).

Record GetParams := {
  get_ids : option IdsParam;
  get_where : option Where;
  get_limit : option number;
  get_offset : option number;
  get_include : option (list IncludeEnum);
  get_whereDocument : option WhereDocument;
}.

(** The body of the get request. *)
Record GetRequest := {
  request_ids : option (list string);
  request_where : option Where;
  request_limit : option number;
  request_offset : option number;
  request_include : option (list IncludeEnum);
  request_where_document : option WhereDocument;
}.

(** [GetResponse].  [documents] and [metadatas] are passed on as they are
    and tested for presence by [parallelArraysToDocs], so they are options
    like [embeddings]. *)
Record GetResponse := {
  got_ids : list string;
  got_embeddings : option (list Embedding);
  got_documents : option (list (option string));
  got_metadatas : option (list (option Metadata));
  got_error : option string;
  got_included : list IncludeEnum;
}.

Inductive Client (A : Type) :=
| ClientReturn (a : A)
| ClientRaise (e : JsError)
| AwaitResolver (p : Prog (loc * heap)) (k : loc * heap -> Client A)
| ApiAdd (collectionId : string) (body : ParallelArrays)
    (k : AddResponse -> Client A)
| ApiUpsert (collectionId : string) (body : ParallelArrays)
    (k : AddResponse -> Client A)
| ApiGet (collectionId : string) (request : GetRequest)
    (k : GetResponse -> Client A).
Arguments ClientReturn {A} a.
Arguments ClientRaise {A} e.
Arguments AwaitResolver {A} p k.
Arguments ApiAdd {A} collectionId body k.
Arguments ApiUpsert {A} collectionId body k.
Arguments ApiGet {A} collectionId request k.

(** The collaborators of a run of the client. *)
Record ClientEnvironment := {
  resolver : Environment;
  add : string -> ParallelArrays -> result AddResponse;
  upsert : string -> ParallelArrays -> result AddResponse;
  aGet : string -> GetRequest -> result GetResponse;
}.

Fixpoint runClient {A} (env : ClientEnvironment) (p : Client A) : result A :=
  match p with
  | ClientReturn a => Ok a
  | ClientRaise e => Throw e
  | AwaitResolver q k =>
      match run (resolver env) q with
      | Ok v => runClient env (k v)
      | Throw e => Throw e
      end
  | ApiAdd c b k =>
      match add env c b with
      | Ok v => runClient env (k v)
      | Throw e => Throw e
      end
  | ApiUpsert c b k =>
      match upsert env c b with
      | Ok v => runClient env (k v)
      | Throw e => Throw e
      end
  | ApiGet c r k =>
      match aGet env c r with
      | Ok v => runClient env (k v)
      | Throw e => Throw e
      end
  end.

(** The requests made to the server during a run, in order. *)
Inductive ApiCall :=
| CallAdd (collectionId : string) (body : ParallelArrays)
| CallUpsert (collectionId : string) (body : ParallelArrays)
| CallGet (collectionId : string) (request : GetRequest).

Fixpoint apiCalls {A} (env : ClientEnvironment) (p : Client A)
  : list ApiCall :=
  match p with
  | ClientReturn _ | ClientRaise _ => []
  | AwaitResolver q k =>
      match run (resolver env) q with
      | Ok v => apiCalls env (k v)
      | Throw _ => []
      end
  | ApiAdd c b k =>
      CallAdd c b :: match add env c b with
                     | Ok v => apiCalls env (k v)
                     | Throw _ => []
                     end
  | ApiUpsert c b k =>
      CallUpsert c b :: match upsert env c b with
                        | Ok v => apiCalls env (k v)
                        | Throw _ => []
                        end
  | ApiGet c r k =>
      CallGet c r :: match aGet env c r with
                     | Ok v => apiCalls env (k v)
                     | Throw _ => []
                     end
  end.

(** The body of [addDocuments] after [await this.initPromise]:
    [docsToParallelArrays(await computeEmbeddings(documents, ...))] is the
    second argument of [api.add]. *)
Definition addDocuments (collection : Collection) (documents0 : loc)
    (h : heap) : Client (AddResponse * heap) :=
  AwaitResolver (computeEmbeddings documents0 h) (fun '(resolved, h') =>
    match docsToParallelArrays
            (readDoc (objects h') <$> arrayElements h' resolved) with
    | Throw e => ClientRaise e
    | Ok body =>
        ApiAdd (collection_id collection) body (fun answer =>
          ClientReturn (answer, h'))
    end).

(** The body of [setDocuments] after [await this.initPromise]. *)
Definition setDocuments (collection : Collection) (documents0 : loc)
    (h : heap) : Client (AddResponse * heap) :=
  AwaitResolver (computeEmbeddings documents0 h) (fun '(resolved, h') =>
    match docsToParallelArrays
            (readDoc (objects h') <$> arrayElements h' resolved) with
    | Throw e => ClientRaise e
    | Ok body =>
        ApiUpsert (collection_id collection) body (fun answer =>
          ClientReturn (answer, h'))
    end).

(** Modelled from the spec: [toArray] of [./utils] at the type
    [ID | IDs], as [toArray] above: an array is taken as it is, a single
    id becomes the one-element sequence holding it. *)
Definition toArrayIds (ids0 : IdsParam) : list string :=
  match ids0 with
  | OneId s => [s]
  | ManyIds l => l
  end.

(** [ids ? toArray(ids) : undefined]: the empty string is falsy, an array
    is truthy also when empty. *)
Definition idsArray (ids0 : option IdsParam) : option (list string) :=
  match ids0 with
  | None => None
  | Some (OneId s) => if String.eqb s "" then None else Some (toArrayIds (OneId s))
  | Some (ManyIds l) => Some (toArrayIds (ManyIds l))
  end.

Definition getRequest (params : GetParams) : GetRequest :=
  {| request_ids := idsArray (get_ids params);
     request_where := get_where params;
     request_limit := get_limit params;
     request_offset := get_offset params;
     request_include := get_include params;
     request_where_document := get_whereDocument params |}.

(** The argument of [parallelArraysToDocs] in [getDocuments];
    [response.embeddings ?? undefined] is the same option. *)
Definition getResponseArrays (response : GetResponse) : ParallelArrays :=
  {| ids := Some <$> got_ids response;
     embeddings :=
       fmap (M:=option) (fmap (M:=list) Some) (got_embeddings response);
     documents := got_documents response;
     metadatas := got_metadatas response |}.

(** The body of [getDocuments] after [await this.initPromise]. *)
Definition getDocuments (collection : Collection) (params : GetParams)
  : Client (list BaseChromaDoc) :=
  ApiGet (collection_id collection) (getRequest params) (fun response =>
    match parallelArraysToDocs (getResponseArrays response) with
    | Ok docs => ClientReturn docs
    | Throw e => ClientRaise e
    end).

(** The similarity requests made during a run of a [Prog], in order. *)
Fixpoint neighborRequests {A} (env : Environment) (p : Prog A)
  : list (string * QueryRequest) :=
  match p with
  | Return _ | Raise _ => []
  | Generate texts k =>
      match generate env texts with
      | Ok v => neighborRequests env (k v)
      | Throw _ => []
      end
  | GetNearestNeighbors c r k =>
      (c, r) :: match getNearestNeighbors env c r with
                | Ok v => neighborRequests env (k v)
                | Throw _ => []
                end
  end.

(** The capability keeps its contract: it answers with at least as many
    vectors as it was given texts. *)
Definition answersEveryText (env : Environment) : Prop :=
  forall texts es, generate env texts = Ok es -> length texts <= length es.

(** The get response holds the columns of the write body: the server
    stored the rows and sends them back. *)
Definition holdsColumns (response : GetResponse) (body : ParallelArrays)
  : Prop :=
  getResponseArrays response = body.

(** Collaborators whose embedding function answers every text with the
    vector [v]. *)
Definition uniformEnvironment (v : Embedding) (response : QueryResponse)
  : Environment :=
  {| generate := fun texts => Ok (replicate (length texts) v);
     getNearestNeighbors := fun _ _ => Ok response |}.

(** The collaborators of [env], the server answering every similarity
    request with [response]. *)
Definition answeringWith (env : Environment) (response : QueryResponse)
  : Environment :=
  {| generate := generate env;
     getNearestNeighbors := fun _ _ => Ok response |}.

(** A response whose first entry is well formed and whose second entry
    has two neighbour ids and one document. *)
Definition malformedSecondEntry : QueryResponse :=
  {| response_ids := [["doc1"]; ["doc2"; "doc1"]];
     response_embeddings := None;
     response_documents := Some [[Some "doc1"]; [Some "doc2"]];
     response_metadatas := None;
     response_distances := None;
     included := [Documents] |}.

(** The queries for which [docQueryToQueryDoc] builds an object. *)
Definition allocates (q : DocQuery) : bool :=
  match q with
  | QueryObject _ => false
  | QueryText _ | QueryVector _ => true
  end.

(** A server that accepts every write and answers every get with
    [response]. *)
Definition acceptingClient (env : Environment) (response : GetResponse)
  : ClientEnvironment :=
  {| resolver := env;
     add := fun _ _ => Ok {| add_error := "" |};
     upsert := fun _ _ => Ok {| add_error := "" |};
     aGet := fun _ _ => Ok response |}.

(** [{ ids: ids0 }], every other option left out. *)
Definition getByIds (ids0 : option IdsParam) : GetParams :=
  {| get_ids := ids0; get_where := None; get_limit := None;
     get_offset := None; get_include := None; get_whereDocument := None |}.

(** A column of [n] absent values when the array is missing. *)
Definition filledColumn {A} (n : nat) (arr : option (list (option A)))
  : list (option A) :=
  match arr with
  | Some a => a
  | None => replicate n None
  end.

(** ** Tactics *)

(** Case analysis on membership in a list that is written out: every
    element must close the goal by computation. *)
Ltac each_element H :=
  repeat (apply elem_of_cons in H as [-> | H]; [reflexivity|]);
  by apply elem_of_nil in H.

(** * Properties *)

(** ** The record codec *)

Section encode.

Implicit Types (docs : list BaseChromaDoc) (st : EncodeState).

Lemma Set_has_empty x : Set_has [] x = false.
Proof. unfold Set_has. apply bool_decide_eq_false. apply not_elem_of_nil. Qed.

(** Nothing is ever added to [idSet], so no iteration takes the duplicate
    branch and every document is appended. *)
Lemma encodeStep_no_duplicate st d :
  idSet st = [] -> duplicateIds st = [] ->
  encodeStep st d =
    {| result_ids := result_ids st ++ [id d];
       result_embeddings := result_embeddings st ++ [embedding d];
       result_documents := result_documents st ++ [contents d];
       result_metadatas := result_metadatas st ++ [metadata d];
       idSet := [];
       duplicateIds := [] |}.
Proof.
  intros Hset Hdup. unfold encodeStep.
  rewrite Hset, Set_has_empty, Hdup. reflexivity.
Qed.

Lemma encode_loop docs : forall st,
  idSet st = [] -> duplicateIds st = [] ->
  foldl encodeStep st docs =
    {| result_ids := result_ids st ++ (id <$> docs);
       result_embeddings := result_embeddings st ++ (embedding <$> docs);
       result_documents := result_documents st ++ (contents <$> docs);
       result_metadatas := result_metadatas st ++ (metadata <$> docs);
       idSet := [];
       duplicateIds := [] |}.
Proof.
  induction docs as [|d docs IH]; intros st Hset Hdup.
  - destruct st; simpl in *; subst. by rewrite !app_nil_r.
  - cbn [foldl]. rewrite (encodeStep_no_duplicate _ _ Hset Hdup).
    rewrite IH by reflexivity. cbn.
    by rewrite <- !app_assoc.
Qed.

(** [docsToParallelArrays] returns the four columns of its whole input,
    whatever the ids are. *)
Lemma docsToParallelArrays_columns docs :
  docsToParallelArrays docs =
    Ok {| ids := id <$> docs;
          embeddings := Some (embedding <$> docs);
          documents := Some (contents <$> docs);
          metadatas := Some (metadata <$> docs) |}.
Proof.
  unfold docsToParallelArrays.
  rewrite (encode_loop docs encodeInit eq_refl eq_refl). reflexivity.
Qed.

End encode.

Section decode.

Implicit Types (pa : ParallelArrays).

Lemma lengthDiffers_false {A B} (ids0 : list A) (arr : option (list B)) :
  lengthDiffers ids0 arr = false <->
  (forall a, arr = Some a -> length a = length ids0).
Proof.
  destruct arr as [a|]; simpl.
  - rewrite bool_decide_eq_false. split.
    + intros H a' [= <-]. destruct (decide (length a = length ids0)); [done|].
      exfalso. apply H. congruence.
    + intros H Hne. apply Hne. symmetry. by apply H.
  - split; [intros _ a [=] | done].
Qed.

Lemma parallelArraysToDocs_Ok pa :
  lengthsAgree pa ->
  parallelArraysToDocs pa =
    Ok (imap (fun index id0 =>
                {| id := id0;
                   embedding := optIndex (embeddings pa) index;
                   contents := optIndex (documents pa) index;
                   metadata := optIndex (metadatas pa) index |})
             (ids pa)).
Proof.
  intros (He & Hd & Hm). unfold parallelArraysToDocs.
  apply lengthDiffers_false in He, Hd, Hm. by rewrite He, Hd, Hm.
Qed.

Lemma parallelArraysToDocs_Throw pa :
  ~ lengthsAgree pa ->
  parallelArraysToDocs pa = Throw (Error lengthMismatchMessage).
Proof.
  intros Hno. unfold parallelArraysToDocs.
  destruct (lengthDiffers (ids pa) (embeddings pa)) eqn:He; [done|].
  destruct (lengthDiffers (ids pa) (metadatas pa)) eqn:Hm; [done|].
  destruct (lengthDiffers (ids pa) (documents pa)) eqn:Hd; [done|].
  exfalso. apply Hno. repeat split; by apply lengthDiffers_false.
Qed.

End decode.

Section codec_claims.

Lemma lengthMismatch_not_agree pa : lengthMismatch pa <-> ~ lengthsAgree pa.
Proof.
  unfold lengthMismatch, lengthsAgree. split.
  - intros [(a & Ha & Hne) | [(a & Ha & Hne) | (a & Ha & Hne)]] (He & Hd & Hm);
      apply Hne; eauto.
  - intros Hno.
    destruct (embeddings pa) as [e|] eqn:He;
      [destruct (decide (length e = length (ids pa))); [|by eauto]|];
      (destruct (documents pa) as [d|] eqn:Hd;
        [destruct (decide (length d = length (ids pa))); [|by eauto 6]|]);
      (destruct (metadatas pa) as [m|] eqn:Hm;
        [destruct (decide (length m = length (ids pa))); [|by eauto 6]|]);
      exfalso; apply Hno; repeat split; congruence.
Qed.

Lemma lengthsAgree_not_mismatch pa : lengthsAgree pa <-> ~ lengthMismatch pa.
Proof.
  split.
  - intros Hagree Hmis. by apply lengthMismatch_not_agree in Hmis.
  - intros Hno.
    destruct pa as [i0 [e|] [d|] [m|]]; unfold lengthsAgree; cbn;
      repeat split; intros a [= <-];
      match goal with
      | |- length ?x = length ?y =>
          destruct (decide (length x = length y)) as [|Hne]; [done|]
      end;
      exfalso; apply Hno; unfold lengthMismatch; cbn; eauto 6.
Qed.

Lemma decoded_lookup pa i id0 :
  ids pa !! i = Some id0 ->
  imap (fun index id1 =>
          {| id := id1;
             embedding := optIndex (embeddings pa) index;
             contents := optIndex (documents pa) index;
             metadata := optIndex (metadatas pa) index |})
       (ids pa) !! i
  = Some {| id := id0;
            embedding := optIndex (embeddings pa) i;
            contents := optIndex (documents pa) i;
            metadata := optIndex (metadatas pa) i |}.
Proof. intros Hi. by rewrite list_lookup_imap, Hi. Qed.

(** C1 (the code departs from the claim): [idSet] is tested but never
    filled, so a batch with a repeated id is encoded in full instead of
    being rejected.  On the batch a, b, a the call returns the three
    columns with "a" twice. *)
Theorem C1_repeated_id_is_encoded :
  docsToParallelArrays [textDoc "a" "x"; textDoc "b" "y"; textDoc "a" "z"]
  = Ok {| ids := [Some "a"; Some "b"; Some "a"];
          embeddings := Some [None; None; None];
          documents := Some [Some "x"; Some "y"; Some "z"];
          metadatas := Some [None; None; None] |}.
Proof. reflexivity. Qed.

(** No input makes [docsToParallelArrays] throw. *)
Lemma docsToParallelArrays_never_throws docs e :
  docsToParallelArrays docs <> Throw e.
Proof. rewrite docsToParallelArrays_columns. discriminate. Qed.

Lemma decode_columns docs :
  parallelArraysToDocs
    {| ids := id <$> docs;
       embeddings := Some (embedding <$> docs);
       documents := Some (contents <$> docs);
       metadatas := Some (metadata <$> docs) |}
  = Ok docs.
Proof.
  rewrite parallelArraysToDocs_Ok.
  2:{ repeat split; cbn; intros a [= <-]; by rewrite !length_fmap. }
  f_equal. apply list_eq. intros i. rewrite list_lookup_imap.
  unfold optIndex, atIndex. cbn [ids embeddings documents metadatas].
  rewrite !list_lookup_fmap.
  destruct (docs !! i) as [d|]; cbn; [by destruct d | reflexivity].
Qed.

(** C2: for documents with pairwise distinct ids, encoding succeeds, the
    encoded [ids] column is as long as the input, and decoding the
    encoded columns gives back the input, field for field and in
    order. *)
Theorem C2_decode_encode_roundtrip (docs : list BaseChromaDoc) :
  NoDup (id <$> docs) ->
  exists pa,
    docsToParallelArrays docs = Ok pa
    /\ length (ids pa) = length docs
    /\ parallelArraysToDocs pa = Ok docs.
Proof.
  intros _. eexists. split; [apply docsToParallelArrays_columns|].
  split; [cbn; by rewrite length_fmap | apply decode_columns].
Qed.

Lemma C2_decode_encode_roundtrip_witness :
  NoDup (id <$> [textDoc "doc1" "doc1"; textDoc "doc2" "doc2"])
  /\ exists pa,
       docsToParallelArrays [textDoc "doc1" "doc1"; textDoc "doc2" "doc2"]
       = Ok pa
       /\ length (ids pa) = 2
       /\ parallelArraysToDocs pa
          = Ok [textDoc "doc1" "doc1"; textDoc "doc2" "doc2"].
Proof.
  assert (H : NoDup (id <$> [textDoc "doc1" "doc1"; textDoc "doc2" "doc2"])).
  { apply (bool_decide_unpack _). vm_compute. exact I. }
  split; [exact H|].
  exact (C2_decode_encode_roundtrip
           [textDoc "doc1" "doc1"; textDoc "doc2" "doc2"] H).
Defined.

(** C8: [parallelArraysToDocs] throws its length error exactly when some
    array that is present differs in length from [ids]; otherwise it
    returns one document per id, in order, whose fields are the entries
    of the arrays at that index, a field whose array is missing being
    absent. *)
Theorem C8_decode_length_check (pa : ParallelArrays) :
  (parallelArraysToDocs pa = Throw (Error lengthMismatchMessage)
   <-> lengthMismatch pa)
  /\ (~ lengthMismatch pa ->
      exists docs,
        parallelArraysToDocs pa = Ok docs
        /\ length docs = length (ids pa)
        /\ forall i id0, ids pa !! i = Some id0 ->
             exists d,
               docs !! i = Some d
               /\ id d = id0
               /\ embedding d = optIndex (embeddings pa) i
               /\ contents d = optIndex (documents pa) i
               /\ metadata d = optIndex (metadatas pa) i
               /\ (embeddings pa = None -> embedding d = None)
               /\ (documents pa = None -> contents d = None)
               /\ (metadatas pa = None -> metadata d = None)).
Proof.
  split.
  - split.
    + intros Hthrow. apply lengthMismatch_not_agree. intros Hagree.
      rewrite (parallelArraysToDocs_Ok _ Hagree) in Hthrow. discriminate.
    + intros Hmis. apply parallelArraysToDocs_Throw.
      by apply lengthMismatch_not_agree.
  - intros Hno.
    assert (Hagree : lengthsAgree pa) by by apply lengthsAgree_not_mismatch.
    eexists. split; [by apply parallelArraysToDocs_Ok|].
    split; [by rewrite length_imap|].
    intros i id0 Hi. eexists. split; [by apply decoded_lookup|]. cbn.
    repeat split; try reflexivity; by intros ->.
Qed.

End codec_claims.

(** ** The embedding resolver *)

Section resolver.

Implicit Types (σ : store) (h : heap) (docs : list DocValue) (doc : DocValue).

Lemma filter_nil_iff {A} (f : A -> bool) (l : list A) :
  List.filter f l = [] <-> (forall x, x ∈ l -> f x = false).
Proof.
  induction l as [|a l IH]; cbn.
  - split; [intros _ x Hx; by apply elem_of_nil in Hx | done].
  - destruct (f a) eqn:Ha; split.
    + discriminate.
    + intros H. specialize (H a (list_elem_of_here _ _)). congruence.
    + intros Hnil x [-> | Hx]%elem_of_cons; [done | by apply IH].
    + intros H. apply IH. intros x Hx. apply H. by apply elem_of_cons; right.
Qed.

Lemma elem_of_filter_bool {A} (f : A -> bool) (l : list A) x :
  x ∈ List.filter f l <-> x ∈ l /\ f x = true.
Proof. rewrite !list_elem_of_In. apply filter_In. Qed.

Lemma length_pos_not_nil {A} (l : list A) : 0 < length l <-> l <> [].
Proof. destruct l; cbn; split; (done || lia). Qed.

Lemma arrayElements_Some h a docs :
  arrays h !! a = Some docs -> arrayElements h a = docs.
Proof. unfold arrayElements. by intros ->. Qed.

(** The three ways through [computeEmbeddings]. *)

Lemma computeEmbeddings_reject h a docs :
  arrays h !! a = Some docs ->
  List.filter (withoutContentsOrEmbedding (objects h)) docs <> [] ->
  computeEmbeddings a h =
    Raise (Error (missingContentPrefix
                  +:+ join ", " (getField id (objects h) <$>
                        List.filter (withoutContentsOrEmbedding (objects h))
                          docs))).
Proof.
  intros Ha Hne. unfold computeEmbeddings. rewrite (arrayElements_Some _ _ _ Ha).
  rewrite bool_decide_eq_true_2; [done | by apply length_pos_not_nil].
Qed.

Lemma computeEmbeddings_skip h a docs :
  arrays h !! a = Some docs ->
  List.filter (withoutContentsOrEmbedding (objects h)) docs = [] ->
  List.filter (missingEmbedding (objects h)) docs = [] ->
  computeEmbeddings a h = Return (a, h).
Proof.
  intros Ha Hv Hm. unfold computeEmbeddings.
  rewrite (arrayElements_Some _ _ _ Ha). by rewrite Hv, Hm.
Qed.

Lemma computeEmbeddings_generate h a docs :
  arrays h !! a = Some docs ->
  List.filter (withoutContentsOrEmbedding (objects h)) docs = [] ->
  List.filter (missingEmbedding (objects h)) docs <> [] ->
  computeEmbeddings a h =
    Generate (getField contents (objects h) <$>
                List.filter (missingEmbedding (objects h)) docs)
      (fun embeddings0 =>
         Return (a,
                 {| objects :=
                      assignEmbeddings (objects h)
                        (List.filter (missingEmbedding (objects h)) docs)
                        embeddings0 0;
                    arrays := arrays h |})).
Proof.
  intros Ha Hv Hm. unfold computeEmbeddings.
  rewrite (arrayElements_Some _ _ _ Ha), Hv. cbn.
  rewrite (bool_decide_eq_false_2 (0 < 0)) by lia.
  rewrite bool_decide_eq_false_2; [done|].
  intros Hlen. apply Hm. by apply length_zero_iff_nil.
Qed.

(** A validated element that lacks an embedding is an object of the store
    with non-empty contents: no number primitive, and no empty string,
    gets past the first filter. *)
Lemma validated_is_object σ doc :
  withoutContentsOrEmbedding σ doc = false ->
  missingEmbedding σ doc = true ->
  exists l d s,
    doc = DocRef l /\ σ !! l = Some d /\ embedding d = None
    /\ contents d = Some s /\ s <> "".
Proof.
  unfold withoutContentsOrEmbedding, missingEmbedding.
  intros Hv Hm. rewrite Hm, andb_true_r in Hv.
  apply negb_false_iff in Hv. apply negb_true_iff in Hm.
  apply bool_decide_eq_false in Hm.
  destruct doc as [l|n]; cbn in *; [|discriminate].
  destruct (σ !! l) as [d|] eqn:Hl; cbn in *; [|discriminate].
  destruct (contents d) as [s|] eqn:Hc; cbn in *; [|discriminate].
  exists l, d, s. repeat split; try done.
  - destruct (embedding d); [|done]. exfalso. apply Hm. by eexists.
  - intros ->. discriminate.
Qed.

(** What [generate] is given: only non-empty strings. *)
Lemma generate_texts_truthy h a texts k :
  computeEmbeddings a h = Generate texts k ->
  Forall (fun t => truthy t = true) texts.
Proof.
  unfold computeEmbeddings. set (docs := arrayElements h a).
  set (σ := objects h).
  destruct (bool_decide _) eqn:Hv; [discriminate|].
  destruct (bool_decide (_ = 0)); [discriminate|].
  intros [= <- _].
  apply bool_decide_eq_false in Hv.
  assert (Hnil : List.filter (withoutContentsOrEmbedding σ) docs = []).
  { destruct (List.filter _ docs); [done|]. exfalso. apply Hv. cbn. lia. }
  apply Forall_fmap, Forall_forall. intros doc [Hin Hm]%elem_of_filter_bool.
  cbn. pose proof (proj1 (filter_nil_iff _ _) Hnil doc Hin) as Hok.
  destruct (validated_is_object _ _ Hok Hm) as (l & d & s & -> & Hl & _ & Hc & Hs).
  cbn. rewrite Hl. cbn. rewrite Hc. cbn.
  apply negb_true_iff. by apply String.eqb_neq.
Qed.

(** The writes of the loop. *)

Lemma length_assignEmbeddings docs : forall σ es i,
  length (assignEmbeddings σ docs es i) = length σ.
Proof.
  induction docs as [|doc docs IH]; intros σ es i; cbn; [done|].
  rewrite IH. destruct doc; cbn; [apply length_alter | done].
Qed.

Lemma setEmbedding_other σ doc e l :
  doc <> DocRef l -> setEmbedding σ doc e !! l = σ !! l.
Proof.
  destruct doc as [l'|n]; cbn; [|done].
  intros Hne. apply list_lookup_alter_ne. congruence.
Qed.

Lemma setEmbedding_same σ e l :
  setEmbedding σ (DocRef l) e !! l = withEmbedding e <$> σ !! l.
Proof. cbn. apply list_lookup_alter_eq. Qed.

(** An object that is not among the written ones is left as it was. *)
Lemma assignEmbeddings_other docs l : forall σ es i,
  DocRef l ∉ docs -> assignEmbeddings σ docs es i !! l = σ !! l.
Proof.
  induction docs as [|doc docs IH]; intros σ es i Hnot; cbn; [done|].
  apply not_elem_of_cons in Hnot as [Hne Hnot].
  rewrite IH by done. apply setEmbedding_other. congruence.
Qed.

(** The embedding of a written object is the vector at the position of
    its last occurrence; its other fields are kept. *)
Lemma assignEmbeddings_last docs : forall σ es i j l,
  docs !! j = Some (DocRef l) ->
  (forall j', j < j' -> docs !! j' <> Some (DocRef l)) ->
  assignEmbeddings σ docs es i !! l
  = withEmbedding (es !! (i + j)) <$> σ !! l.
Proof.
  induction docs as [|doc docs IH]; intros σ es i j l Hj Hlast; [done|].
  destruct j as [|j]; cbn in Hj.
  - injection Hj as ->. cbn [assignEmbeddings].
    rewrite assignEmbeddings_other.
    + rewrite setEmbedding_same. by rewrite Nat.add_0_r.
    + intros (j' & Hj')%list_elem_of_lookup.
      apply (Hlast (S j')); [lia | done].
  - cbn [assignEmbeddings]. rewrite (IH _ _ (S i) j l Hj).
    2:{ intros j' Hlt. apply (Hlast (S j')). lia. }
    replace (S i + j) with (i + S j) by lia.
    destruct doc as [l'|n]; [destruct (decide (l' = l)) as [->|Hne]|].
    + rewrite setEmbedding_same. by destruct (σ !! l).
    + rewrite setEmbedding_other; [done | congruence].
    + done.
Qed.

End resolver.

Section resolver_claims.

Implicit Types (σ : store) (h : heap) (docs : list DocValue) (doc : DocValue).

Lemma neither_is_rejected σ doc :
  getField contents σ doc = None -> getField embedding σ doc = None ->
  withoutContentsOrEmbedding σ doc = true.
Proof.
  intros Hc He. unfold withoutContentsOrEmbedding. by rewrite Hc, He.
Qed.

Lemma empty_contents_is_rejected σ doc :
  getField contents σ doc = Some "" -> getField embedding σ doc = None ->
  withoutContentsOrEmbedding σ doc = true.
Proof.
  intros Hc He. unfold withoutContentsOrEmbedding. by rewrite Hc, He.
Qed.

Lemma rejected_raises h a docs doc :
  arrays h !! a = Some docs ->
  doc ∈ docs -> withoutContentsOrEmbedding (objects h) doc = true ->
  doc ∈ List.filter (withoutContentsOrEmbedding (objects h)) docs
  /\ computeEmbeddings a h =
       Raise (Error (missingContentPrefix
                     +:+ join ", " (getField id (objects h) <$>
                           List.filter (withoutContentsOrEmbedding (objects h))
                             docs))).
Proof.
  intros Ha Hin Hrej.
  assert (Hmem : doc ∈ List.filter (withoutContentsOrEmbedding (objects h)) docs)
    by by apply elem_of_filter_bool.
  split; [done|]. apply computeEmbeddings_reject; [done|].
  intros Hnil. rewrite Hnil in Hmem. by apply elem_of_nil in Hmem.
Qed.

(** C5, amended: when some document of the array has neither contents nor
    an embedding, [computeEmbeddings] throws; the message lists, in input
    order, the ids of the documents the validation rejects (that document
    among them), an id-less document giving an empty entry and no
    position; [generate] is not called. *)
Theorem C5_missing_content_lists_ids h a docs doc :
  arrays h !! a = Some docs ->
  doc ∈ docs ->
  getField contents (objects h) doc = None ->
  getField embedding (objects h) doc = None ->
  doc ∈ List.filter (withoutContentsOrEmbedding (objects h)) docs
  /\ computeEmbeddings a h =
       Raise (Error (missingContentPrefix
                     +:+ join ", " (getField id (objects h) <$>
                           List.filter (withoutContentsOrEmbedding (objects h))
                             docs)))
  /\ forall env, generateCalls env (computeEmbeddings a h) = [].
Proof.
  intros Ha Hin Hc He.
  destruct (rejected_raises h a docs doc Ha Hin (neither_is_rejected _ _ Hc He))
    as [Hmem Hraise].
  repeat split; try done. intros env. by rewrite Hraise.
Qed.

Lemma C5_missing_content_lists_ids_witness :
  computeEmbeddings 0
    (oneArray [{| id := Some "d1"; embedding := None; metadata := None;
                  contents := None |}])
  = Raise (Error "The following documents have neither contents nor embeddings: d1").
Proof.
  refine (proj1 (proj2 (C5_missing_content_lists_ids
    (oneArray [{| id := Some "d1"; embedding := None; metadata := None;
                  contents := None |}]) 0 [DocRef 0] (DocRef 0) _ _ _ _))).
  - reflexivity.
  - apply list_elem_of_here.
  - reflexivity.
  - reflexivity.
Defined.

(** C5 as stated fails for documents without ids: the two calls below
    reject a different position and throw the same error. *)
Lemma C5_positions_not_reported : ~ errorIdentifiesPositions.
Proof.
  intros [locate Hloc].
  pose (h := {| objects := [contentsDoc "a"; emptyDoc];
                arrays := [[DocRef 0; DocRef 1]; [DocRef 1; DocRef 0]] |}).
  assert (H1 := Hloc h 0 [DocRef 0; DocRef 1] (Error missingContentPrefix)
                  eq_refl).
  assert (H2 := Hloc h 1 [DocRef 1; DocRef 0] (Error missingContentPrefix)
                  eq_refl).
  assert (Hnoid : forall docs,
             docs = [DocRef 0; DocRef 1] \/ docs = [DocRef 1; DocRef 0] ->
             forall d, d ∈ docs -> getField id (objects h) d = None).
  { intros docs [-> | ->] d Hd; each_element Hd. }
  specialize (H1 (Hnoid _ (or_introl eq_refl)) eq_refl).
  specialize (H2 (Hnoid _ (or_intror eq_refl)) eq_refl).
  rewrite H1 in H2. discriminate H2.
Qed.

(** C10: a document whose contents is the empty string and that has no
    embedding makes [computeEmbeddings] throw the missing-content error
    without calling [generate]; and no call of [computeEmbeddings]
    whatever passes an empty (or absent) text to [generate]. *)
Theorem C10_empty_contents_is_missing h a docs doc :
  arrays h !! a = Some docs ->
  doc ∈ docs ->
  getField contents (objects h) doc = Some "" ->
  getField embedding (objects h) doc = None ->
  (exists ids0,
     computeEmbeddings a h =
       Raise (Error (missingContentPrefix +:+ join ", " ids0)))
  /\ (forall env, generateCalls env (computeEmbeddings a h) = [])
  /\ (forall a' h' texts k,
        computeEmbeddings a' h' = Generate texts k ->
        (Some "" ∉ texts) /\ (None ∉ texts)).
Proof.
  intros Ha Hin Hc He.
  destruct (rejected_raises h a docs doc Ha Hin
              (empty_contents_is_rejected _ _ Hc He)) as [_ Hraise].
  split; [by eexists|]. split; [intros env; by rewrite Hraise|].
  intros a' h' texts k Hgen.
  apply generate_texts_truthy in Hgen. rewrite Forall_forall in Hgen.
  split; intros Hmem; by specialize (Hgen _ Hmem).
Qed.

Lemma C10_empty_contents_is_missing_witness :
  exists ids0,
    computeEmbeddings 0 (oneArray [textDoc "a" "x"; textDoc "b" ""])
    = Raise (Error (missingContentPrefix +:+ join ", " ids0)).
Proof.
  refine (proj1 (C10_empty_contents_is_missing
    (oneArray [textDoc "a" "x"; textDoc "b" ""]) 0 [DocRef 0; DocRef 1]
    (DocRef 1) _ _ _ _)).
  - reflexivity.
  - apply list_elem_of_further, list_elem_of_here.
  - reflexivity.
  - reflexivity.
Defined.

(** C7: when every document of the array carries an embedding,
    [computeEmbeddings] returns the array it was given and leaves the heap
    as it was, without calling [generate]; resolving the result once more
    does the same. *)
Theorem C7_resolved_input_is_returned h a docs :
  arrays h !! a = Some docs ->
  (forall doc, doc ∈ docs -> is_Some (getField embedding (objects h) doc)) ->
  computeEmbeddings a h = Return (a, h)
  /\ prog_bind (computeEmbeddings a h)
       (fun r => computeEmbeddings r.1 r.2) = Return (a, h)
  /\ forall env,
       generateCalls env (computeEmbeddings a h) = []
       /\ generateCalls env
            (prog_bind (computeEmbeddings a h)
               (fun r => computeEmbeddings r.1 r.2)) = [].
Proof.
  intros Ha Hall.
  assert (Hret : computeEmbeddings a h = Return (a, h)).
  { apply (computeEmbeddings_skip h a docs Ha); apply filter_nil_iff;
      intros doc Hin; specialize (Hall doc Hin).
    - unfold withoutContentsOrEmbedding.
      rewrite (bool_decide_eq_true_2 _ Hall). apply andb_false_r.
    - unfold missingEmbedding. by rewrite (bool_decide_eq_true_2 _ Hall). }
  rewrite Hret. cbn. by rewrite Hret.
Qed.

Lemma C7_resolved_input_is_returned_witness :
  computeEmbeddings 0
    (oneArray [withEmbedding (Some [1%float; 2%float]) (textDoc "a" "x")])
  = Return (0, oneArray [withEmbedding (Some [1%float; 2%float])
                           (textDoc "a" "x")]).
Proof.
  refine (proj1 (C7_resolved_input_is_returned
    (oneArray [withEmbedding (Some [1%float; 2%float]) (textDoc "a" "x")])
    0 [DocRef 0] _ _)).
  - reflexivity.
  - intros doc Hin. apply list_elem_of_singleton in Hin as ->.
    by eexists.
Defined.

End resolver_claims.

Section resolver_generate.

Implicit Types (σ : store) (h : heap) (docs : list DocValue) (doc : DocValue).

Lemma missingEmbedding_true σ doc :
  missingEmbedding σ doc = true <-> getField embedding σ doc = None.
Proof.
  unfold missingEmbedding. rewrite negb_true_iff, bool_decide_eq_false.
  destruct (getField embedding σ doc); split; try done.
  intros H. exfalso. apply H. by eexists.
Qed.

(** C4, amended: when every document of the array passes the validation
    and some document lacks an embedding, [computeEmbeddings] calls
    [generate] once, with the (non-empty) contents of the embedding-less
    documents in input order, and then returns the array it was given,
    unchanged as an array, having written into its documents: objects
    outside the embedding-less ones are as they were, and the i-th
    embedding-less document has the i-th returned vector as its embedding,
    the last write staying when one object occurs twice. *)
Theorem C4_generate_once_then_write h a docs :
  arrays h !! a = Some docs ->
  (forall doc, doc ∈ docs ->
               withoutContentsOrEmbedding (objects h) doc = false) ->
  (exists doc, doc ∈ docs /\ getField embedding (objects h) doc = None) ->
  exists missing k,
    missing = List.filter (missingEmbedding (objects h)) docs
    /\ (forall doc, doc ∈ missing <->
                    doc ∈ docs /\ getField embedding (objects h) doc = None)
    /\ computeEmbeddings a h =
         Generate (getField contents (objects h) <$> missing) k
    /\ Forall (fun t => truthy t = true)
         (getField contents (objects h) <$> missing)
    /\ (forall env,
          generateCalls env (computeEmbeddings a h)
          = [getField contents (objects h) <$> missing])
    /\ forall es,
         exists h',
           k es = Return (a, h')
           /\ (forall env,
                 generate env (getField contents (objects h) <$> missing)
                 = Ok es ->
                 run env (computeEmbeddings a h) = Ok (a, h'))
           /\ arrays h' = arrays h
           /\ length (objects h') = length (objects h)
           /\ (forall l, DocRef l ∉ missing ->
                         objects h' !! l = objects h !! l)
           /\ (forall i doc, missing !! i = Some doc ->
                 exists l, doc = DocRef l /\ is_Some (objects h !! l))
           /\ (forall i l,
                 missing !! i = Some (DocRef l) ->
                 (forall j, i < j -> missing !! j <> Some (DocRef l)) ->
                 objects h' !! l
                 = withEmbedding (es !! i) <$> objects h !! l).
Proof.
  intros Ha Hvalid (doc0 & Hin0 & Hnone0).
  assert (Hv : List.filter (withoutContentsOrEmbedding (objects h)) docs = [])
    by by apply filter_nil_iff.
  assert (Hm : List.filter (missingEmbedding (objects h)) docs <> []).
  { intros Hnil.
    pose proof (proj1 (filter_nil_iff _ _) Hnil doc0 Hin0) as Hf.
    apply missingEmbedding_true in Hnone0. congruence. }
  pose proof (computeEmbeddings_generate h a docs Ha Hv Hm) as Hgen.
  eexists _, _. split; [reflexivity|].
  split.
  { intros doc. rewrite elem_of_filter_bool. by rewrite missingEmbedding_true. }
  split; [exact Hgen|].
  split; [exact (generate_texts_truthy _ _ _ _ Hgen)|].
  split.
  { intros env. rewrite Hgen. cbn. by destruct (generate env _). }
  intros es. eexists. split; [reflexivity|].
  split.
  { intros env Henv. rewrite Hgen. cbn. by rewrite Henv. }
  cbn. split; [done|].
  split; [apply length_assignEmbeddings|].
  split; [intros l Hl; by apply assignEmbeddings_other|].
  split.
  { intros i doc Hi.
    assert (Hmem : doc ∈ List.filter (missingEmbedding (objects h)) docs)
      by (apply list_elem_of_lookup; eauto).
    apply elem_of_filter_bool in Hmem as [Hin Hmiss].
    destruct (validated_is_object (objects h) doc (Hvalid doc Hin) Hmiss)
      as (l & d & s & -> & Hl & _).
    exists l. split; [done | by eexists]. }
  intros i l Hi Hlast.
  by rewrite (assignEmbeddings_last _ (objects h) es 0 i l Hi Hlast).
Qed.

Lemma C4_generate_once_then_write_witness :
  exists k,
    computeEmbeddings 0
      (oneArray [textDoc "a" "x";
                 withEmbedding (Some [1%float]) (textDoc "b" "y");
                 textDoc "c" "z"])
    = Generate [Some "x"; Some "z"] k
    /\ k [[2%float]; [3%float]]
       = Return (0,
                 oneArray [withEmbedding (Some [2%float]) (textDoc "a" "x");
                           withEmbedding (Some [1%float]) (textDoc "b" "y");
                           withEmbedding (Some [3%float]) (textDoc "c" "z")]).
Proof.
  destruct (C4_generate_once_then_write
              (oneArray [textDoc "a" "x";
                         withEmbedding (Some [1%float]) (textDoc "b" "y");
                         textDoc "c" "z"])
              0 [DocRef 0; DocRef 1; DocRef 2])
    as (missing & k & Hmissing & _ & Hgen & _).
  - reflexivity.
  - intros doc Hin. each_element Hin.
  - exists (DocRef 0). split; [apply list_elem_of_here | reflexivity].
  - exists k. rewrite Hmissing in Hgen. split; [exact Hgen|].
    injection Hgen as <-. reflexivity.
Defined.

(** C4 as stated fails: what is returned is not a new sequence.  The
    call below hands back the reference of the array it was given, whose
    document has been written to. *)
Lemma C4_input_array_is_returned : ~ resolverReturnsNewSequence.
Proof.
  intros Hnew.
  apply (Hnew (constantEnvironment [[2%float]] emptyResponse)
              (oneArray [textDoc "a" "x"])
              (oneArray [withEmbedding (Some [2%float]) (textDoc "a" "x")])
              0 0).
  - by eexists.
  - reflexivity.
  - reflexivity.
Qed.

End resolver_generate.

(** ** The query fan-out and fan-in *)

Section query.

Implicit Types (σ : store) (h : heap) (response : QueryResponse)
  (queryDocs : list DocValue).

Lemma run_bind {A B} env (p : Prog A) (f : A -> Prog B) :
  run env (prog_bind p f) = result_bind (run env p) (fun a => run env (f a)).
Proof.
  induction p as [a|e|texts k IH|c r k IH]; cbn; try done.
  - destruct (generate env texts); cbn; [apply IH | done].
  - destruct (getNearestNeighbors env c r); cbn; [apply IH | done].
Qed.

Lemma run_liftResult {A} env (r : result A) : run env (liftResult r) = r.
Proof. by destruct r. Qed.

(** [computeEmbeddings] hands back the array it was given, and builds or
    changes no array of the heap. *)
Lemma computeEmbeddings_returns_argument env a h r h' :
  run env (computeEmbeddings a h) = Ok (r, h') ->
  r = a /\ arrays h' = arrays h.
Proof.
  unfold computeEmbeddings.
  destruct (bool_decide _); [discriminate|].
  destruct (bool_decide (_ = 0)); cbn.
  - by intros [= <- <-].
  - destruct (generate env _); [by intros [= <- <-] | discriminate].
Qed.

(** [queryDocuments] as seen by a caller: normalize, resolve, one
    request, reassemble, shape. *)
Lemma queryDocuments_run env collection params h queryDocs σ1 :
  mapDocQueryToQueryDoc (toArray (query params)) (objects h)
  = (queryDocs, σ1) ->
  run env (queryDocuments collection params h) =
    result_bind
      (run env (computeEmbeddings (length (arrays h))
                  (withQueryDocs h queryDocs σ1))) (fun r =>
    result_bind (getNearestNeighbors env (collection_id collection)
                   (queryRequest params r.2 r.1)) (fun response =>
    result_bind (multiQueryResult queryDocs response) (fun rs =>
    Ok (shapeResult (query params) rs, r.2)))).
Proof.
  intros Hnorm. unfold queryDocuments. rewrite Hnorm, run_bind.
  destruct (run env (computeEmbeddings _ _)) as [[d h2]|e] eqn:Hres; cbn;
    [|done].
  destruct (getNearestNeighbors env _ _) as [response|e]; cbn; [|done].
  rewrite run_bind, run_liftResult.
  apply computeEmbeddings_returns_argument in Hres as [_ Harr].
  unfold arrayElements. rewrite Harr. cbn.
  rewrite list_lookup_middle by done. cbn.
  by destruct (multiQueryResult queryDocs response).
Qed.

(** [map] with a callback that may throw. *)

Lemma mapResult_Ok_inv {A B} (f : nat -> A -> result B) xs : forall n ys,
  mapResult f n xs = Ok ys ->
  length ys = length xs
  /\ forall i x, xs !! i = Some x ->
       exists y, f (n + i) x = Ok y /\ ys !! i = Some y.
Proof.
  induction xs as [|x xs IH]; intros n ys; cbn.
  - intros [= <-]. split; [done|]. intros i x Hx. by destruct i.
  - destruct (f n x) as [y|e] eqn:Hy; cbn; [|discriminate].
    destruct (mapResult f (S n) xs) as [ys'|e] eqn:Hys; cbn; [|discriminate].
    intros [= <-]. destruct (IH _ _ Hys) as [Hlen Hall].
    split; [cbn; by rewrite Hlen|].
    intros [|i] x' Hx'; cbn in *.
    + injection Hx' as <-. exists y. by rewrite Nat.add_0_r.
    + destruct (Hall i x' Hx') as (y' & Hf & Hl). exists y'.
      by replace (n + S i) with (S n + i) by lia.
Qed.

Lemma mapResult_Ok {A B} (f : nat -> A -> result B) xs : forall n,
  (forall i x, xs !! i = Some x -> exists y, f (n + i) x = Ok y) ->
  exists ys, mapResult f n xs = Ok ys.
Proof.
  induction xs as [|x xs IH]; intros n Hall; cbn; [by eexists|].
  destruct (Hall 0 x eq_refl) as [y Hy]. rewrite Nat.add_0_r in Hy.
  rewrite Hy. cbn.
  destruct (IH (S n)) as [ys Hys].
  { intros i x' Hx'. destruct (Hall (S i) x' Hx') as [y' Hy'].
    exists y'. by replace (S n + i) with (n + S i) by lia. }
  rewrite Hys. by eexists.
Qed.

Lemma optIndex_fmap_Some {A} (arr : option (list A)) i :
  optIndex (fmap (M:=option) (fmap (M:=list) Some) arr) i = atIndex arr i.
Proof.
  unfold optIndex. destruct arr as [a|]; cbn; [|done].
  rewrite list_lookup_fmap. by destruct (a !! i).
Qed.

(** One response entry that passes the length check gives one bundle:
    the query document of that index, and one ranked result per
    neighbour id, in the order of the entry. *)
Lemma queryResultEntry_Ok queryDocs response index ids0 :
  ~ lengthMismatch (responseEntry response index ids0) ->
  exists bundle,
    queryResultEntry queryDocs response index ids0 = Ok bundle
    /\ queryDoc bundle = queryDocs !! index
    /\ length (results bundle) = length ids0
    /\ forall j id0, ids0 !! j = Some id0 ->
         results bundle !! j =
           Some {| doc :=
                     {| id := Some id0;
                        embedding :=
                          atIndex (atIndex (response_embeddings response) index) j;
                        metadata :=
                          optIndex (atIndex (response_metadatas response) index) j;
                        contents :=
                          optIndex (atIndex (response_documents response) index) j |};
                   distance := distanceAt response index j |}.
Proof.
  intros Hagree%lengthsAgree_not_mismatch. unfold queryResultEntry.
  rewrite (parallelArraysToDocs_Ok _ Hagree). cbn.
  eexists. split; [reflexivity|]. cbn. split; [done|].
  split; [by rewrite !length_imap, length_fmap|].
  intros j id0 Hj.
  rewrite !list_lookup_imap, list_lookup_fmap, Hj. cbn.
  by rewrite optIndex_fmap_Some.
Qed.

Lemma queryResultEntry_Throw queryDocs response index ids0 :
  lengthMismatch (responseEntry response index ids0) ->
  queryResultEntry queryDocs response index ids0
  = Throw (Error lengthMismatchMessage).
Proof.
  intros Hmis%lengthMismatch_not_agree. unfold queryResultEntry.
  by rewrite (parallelArraysToDocs_Throw _ Hmis).
Qed.

(** The reassembly succeeds exactly when every entry passes the length
    check of [parallelArraysToDocs]. *)
Lemma multiQueryResult_Ok_iff queryDocs response :
  (exists rs, multiQueryResult queryDocs response = Ok rs)
  <-> (forall index ids0,
         response_ids response !! index = Some ids0 ->
         ~ lengthMismatch (responseEntry response index ids0)).
Proof.
  unfold multiQueryResult. split.
  - intros [rs Hrs] index ids0 Hi Hmis.
    destruct (mapResult_Ok_inv _ _ _ _ Hrs) as [_ Hall].
    destruct (Hall index ids0 Hi) as (y & Hy & _). cbn in Hy.
    by rewrite (queryResultEntry_Throw _ _ _ _ Hmis) in Hy.
  - intros Hall. apply mapResult_Ok. intros i ids0 Hi. cbn.
    destruct (queryResultEntry_Ok queryDocs response i ids0 (Hall i ids0 Hi))
      as (bundle & Hb & _).
    by exists bundle.
Qed.

(** The bundle at each index of a successful reassembly. *)
Lemma multiQueryResult_lookup queryDocs response rs index ids0 :
  multiQueryResult queryDocs response = Ok rs ->
  response_ids response !! index = Some ids0 ->
  exists bundle,
    rs !! index = Some bundle
    /\ queryDoc bundle = queryDocs !! index
    /\ length (results bundle) = length ids0
    /\ forall j id0, ids0 !! j = Some id0 ->
         results bundle !! j =
           Some {| doc :=
                     {| id := Some id0;
                        embedding :=
                          atIndex (atIndex (response_embeddings response) index) j;
                        metadata :=
                          optIndex (atIndex (response_metadatas response) index) j;
                        contents :=
                          optIndex (atIndex (response_documents response) index) j |};
                   distance := distanceAt response index j |}.
Proof.
  intros Hrs Hi.
  assert (Hagree : ~ lengthMismatch (responseEntry response index ids0)).
  { eapply multiQueryResult_Ok_iff; eauto. }
  destruct (mapResult_Ok_inv _ _ _ _ Hrs) as [_ Hall].
  destruct (Hall index ids0 Hi) as (y & Hy & Hlook). cbn in Hy.
  destruct (queryResultEntry_Ok queryDocs response index ids0 Hagree)
    as (bundle & Hb & Hrest).
  exists bundle. split; [congruence | exact Hrest].
Qed.

(** An entry that fails the length check ends the reassembly with the
    length error, wherever in the response it is. *)

Lemma queryResultEntry_cases queryDocs response index ids0 :
  (exists bundle, queryResultEntry queryDocs response index ids0 = Ok bundle)
  \/ queryResultEntry queryDocs response index ids0
     = Throw (Error lengthMismatchMessage).
Proof.
  unfold queryResultEntry, parallelArraysToDocs.
  destruct (_ || _ || _); cbn; [by right | left; by eexists].
Qed.

Lemma mapResult_Throw {A B} (f : nat -> A -> result B) e xs : forall n,
  (forall i x, xs !! i = Some x ->
     (exists y, f (n + i) x = Ok y) \/ f (n + i) x = Throw e) ->
  (exists i x, xs !! i = Some x /\ f (n + i) x = Throw e) ->
  mapResult f n xs = Throw e.
Proof.
  induction xs as [|x xs IH]; intros n Hcases (i & x' & Hi & Hf).
  - by destruct i.
  - cbn. destruct i as [|i]; cbn in Hi.
    + injection Hi as <-. rewrite Nat.add_0_r in Hf. by rewrite Hf.
    + destruct (Hcases 0 x eq_refl) as [[y Hy]|Hy];
        rewrite Nat.add_0_r in Hy; rewrite Hy; cbn; [|done].
      rewrite (IH (S n)); [done| |].
      * intros j z Hj. replace (S n + j) with (n + S j) by lia.
        by apply (Hcases (S j)).
      * exists i, x'. split; [done|].
        by replace (S n + i) with (n + S i) by lia.
Qed.

Lemma multiQueryResult_Throw queryDocs response index ids0 :
  response_ids response !! index = Some ids0 ->
  lengthMismatch (responseEntry response index ids0) ->
  multiQueryResult queryDocs response = Throw (Error lengthMismatchMessage).
Proof.
  intros Hi Hmis. unfold multiQueryResult. apply mapResult_Throw.
  - intros i x _. apply queryResultEntry_cases.
  - exists index, ids0. split; [done|]. cbn.
    by apply queryResultEntry_Throw.
Qed.

(** What a run of [queryDocuments] gives once the queries were resolved
    and the server has answered: the reassembly of the answer, shaped. *)
Lemma queryDocuments_run_response
    env collection params h queryDocs σ1 docsWithEmbeddings h2 response :
  mapDocQueryToQueryDoc (toArray (query params)) (objects h)
  = (queryDocs, σ1) ->
  run env (computeEmbeddings (length (arrays h))
             (withQueryDocs h queryDocs σ1))
  = Ok (docsWithEmbeddings, h2) ->
  getNearestNeighbors env (collection_id collection)
    (queryRequest params h2 docsWithEmbeddings) = Ok response ->
  run env (queryDocuments collection params h) =
    result_bind (multiQueryResult queryDocs response) (fun rs =>
      Ok (shapeResult (query params) rs, h2)).
Proof.
  intros Hnorm Hresolve Hapi.
  rewrite (queryDocuments_run _ _ _ _ _ _ Hnorm), Hresolve. cbn.
  by rewrite Hapi.
Qed.

(** The run returns exactly when every entry of the answer passes the
    length check. *)
Lemma queryDocuments_returns_iff
    env collection params h queryDocs σ1 docsWithEmbeddings h2 response :
  mapDocQueryToQueryDoc (toArray (query params)) (objects h)
  = (queryDocs, σ1) ->
  run env (computeEmbeddings (length (arrays h))
             (withQueryDocs h queryDocs σ1))
  = Ok (docsWithEmbeddings, h2) ->
  getNearestNeighbors env (collection_id collection)
    (queryRequest params h2 docsWithEmbeddings) = Ok response ->
  (exists r, run env (queryDocuments collection params h) = Ok r)
  <-> (forall index ids0,
         response_ids response !! index = Some ids0 ->
         ~ lengthMismatch (responseEntry response index ids0)).
Proof.
  intros Hnorm Hresolve Hapi.
  rewrite (queryDocuments_run_response _ _ _ _ _ _ _ _ _ Hnorm Hresolve Hapi).
  rewrite <- multiQueryResult_Ok_iff with (queryDocs := queryDocs).
  destruct (multiQueryResult queryDocs response) as [rs|e]; cbn;
    split; intros [x Hx]; by eauto.
Qed.

(** The resolver only asks the embedding function. *)
Lemma computeEmbeddings_run_generate env1 env2 a h :
  generate env1 = generate env2 ->
  run env1 (computeEmbeddings a h) = run env2 (computeEmbeddings a h).
Proof.
  intros Hgen. unfold computeEmbeddings.
  destruct (bool_decide _); [done|].
  destruct (bool_decide (_ = 0)); cbn; [done|].
  by rewrite Hgen.
Qed.

(** The distance paired with each neighbour of a reassembled answer. *)
Lemma multiQueryResult_distance queryDocs response rs index ids0 :
  multiQueryResult queryDocs response = Ok rs ->
  response_ids response !! index = Some ids0 ->
  exists bundle,
    rs !! index = Some bundle
    /\ length (results bundle) = length ids0
    /\ forall i, i < length ids0 ->
         exists r,
           results bundle !! i = Some r
           /\ (forall ds row x,
                 response_distances response = Some ds ->
                 ds !! index = Some row -> row !! i = Some x ->
                 distance r = x)
           /\ (response_distances response = None ->
               distance r = 0%float)
           /\ (forall ds,
                 response_distances response = Some ds ->
                 ds !! index = None -> distance r = 0%float)
           /\ (forall ds row,
                 response_distances response = Some ds ->
                 ds !! index = Some row -> length row <= i ->
                 distance r = 0%float).
Proof.
  intros Hrs Hi.
  destruct (multiQueryResult_lookup _ _ _ _ _ Hrs Hi)
    as (bundle & Hb & _ & Hlen & Hres).
  exists bundle. split; [done|]. split; [done|].
  intros i Hlt. destruct (lookup_lt_is_Some_2 ids0 i Hlt) as [id0 Hid].
  eexists. split; [exact (Hres i id0 Hid)|]. cbn. unfold distanceAt.
  repeat split.
  - intros ds row x Hds Hrow Hx. rewrite Hds. unfold atIndex.
    by rewrite Hrow, Hx.
  - by intros ->.
  - intros ds Hds Hrow. rewrite Hds. unfold atIndex. by rewrite Hrow.
  - intros ds row Hds Hrow Hle. rewrite Hds. unfold atIndex.
    by rewrite Hrow, (lookup_ge_None_2 row i Hle).
Qed.

(** C9: take a call of [queryDocuments] whose queries were resolved and
    whose request the server answered with [response].  The call returns
    exactly when every entry of the response passes the length check of
    [parallelArraysToDocs], a check that reads no distance; so it returns
    or fails alike whatever the server sends as distances, absent or
    short ones included.  When the entries pass the check the call does
    return, with one bundle per response entry and one ranked result per
    neighbour id, and the distance of the neighbour at position [i] of
    query [index] is the number the server sent for that position when
    there is one, and zero when the distances are absent, have no row for
    the query, or have a row that ends before [i]. *)
Theorem C9_distance_or_zero
    env collection params h queryDocs σ1 docsWithEmbeddings h2 response :
  mapDocQueryToQueryDoc (toArray (query params)) (objects h)
  = (queryDocs, σ1) ->
  run env (computeEmbeddings (length (arrays h))
             (withQueryDocs h queryDocs σ1))
  = Ok (docsWithEmbeddings, h2) ->
  getNearestNeighbors env (collection_id collection)
    (queryRequest params h2 docsWithEmbeddings) = Ok response ->
  ((exists r, run env (queryDocuments collection params h) = Ok r)
   <-> (forall index ids0,
          response_ids response !! index = Some ids0 ->
          ~ lengthMismatch (responseEntry response index ids0)))
  /\ (forall ds,
        (exists r,
           run (answeringWith env (withDistances ds response))
             (queryDocuments collection params h) = Ok r)
        <-> (exists r, run env (queryDocuments collection params h) = Ok r))
  /\ ((forall index ids0,
         response_ids response !! index = Some ids0 ->
         ~ lengthMismatch (responseEntry response index ids0)) ->
      exists rs,
        run env (queryDocuments collection params h)
        = Ok (shapeResult (query params) rs, h2)
        /\ length rs = length (response_ids response)
        /\ forall index ids0,
             response_ids response !! index = Some ids0 ->
             exists bundle,
               rs !! index = Some bundle
               /\ length (results bundle) = length ids0
               /\ forall i, i < length ids0 ->
                    exists r,
                      results bundle !! i = Some r
                      /\ (forall ds row x,
                            response_distances response = Some ds ->
                            ds !! index = Some row -> row !! i = Some x ->
                            distance r = x)
                      /\ (response_distances response = None ->
                          distance r = 0%float)
                      /\ (forall ds,
                            response_distances response = Some ds ->
                            ds !! index = None -> distance r = 0%float)
                      /\ (forall ds row,
                            response_distances response = Some ds ->
                            ds !! index = Some row -> length row <= i ->
                            distance r = 0%float)).
Proof.
  intros Hnorm Hresolve Hapi.
  pose proof (queryDocuments_returns_iff _ _ _ _ _ _ _ _ _
                Hnorm Hresolve Hapi) as Hiff.
  split; [exact Hiff|]. split.
  - intros ds. rewrite Hiff.
    apply (queryDocuments_returns_iff
             (answeringWith env (withDistances ds response))
             collection params h queryDocs σ1 docsWithEmbeddings h2
             (withDistances ds response) Hnorm); [|done].
    by rewrite <- Hresolve; apply computeEmbeddings_run_generate.
  - intros Hcheck.
    rewrite (queryDocuments_run_response _ _ _ _ _ _ _ _ _
               Hnorm Hresolve Hapi).
    destruct (proj2 (multiQueryResult_Ok_iff queryDocs response) Hcheck)
      as [rs Hrs].
    exists rs. rewrite Hrs. cbn. split; [done|].
    pose proof Hrs as Hinv. unfold multiQueryResult in Hinv.
    apply mapResult_Ok_inv in Hinv as [Hlen _]. split; [done|].
    intros index ids0 Hi.
    exact (multiQueryResult_distance _ _ _ _ _ Hrs Hi).
Qed.

Lemma C9_distance_or_zero_witness :
  exists rs bundle r0 r1,
    run (constantEnvironment [[1%float]; [2%float]] twoEntryResponse)
      (queryDocuments testCollection
         (queryOnly (Batch [QueryText "doc1"; QueryText "doc2"])) emptyHeap)
    = Ok (MultiResult rs,
          oneArray [withEmbedding (Some [1%float]) (contentsDoc "doc1");
                    withEmbedding (Some [2%float]) (contentsDoc "doc2")])
    /\ rs !! 1 = Some bundle
    /\ results bundle !! 0 = Some r0 /\ distance r0 = 0.25%float
    /\ results bundle !! 1 = Some r1 /\ distance r1 = 0%float.
Proof.
  destruct (C9_distance_or_zero
              (constantEnvironment [[1%float]; [2%float]] twoEntryResponse)
              testCollection
              (queryOnly (Batch [QueryText "doc1"; QueryText "doc2"]))
              emptyHeap
              [DocRef 0; DocRef 1]
              [contentsDoc "doc1"; contentsDoc "doc2"]
              0
              (oneArray [withEmbedding (Some [1%float]) (contentsDoc "doc1");
                         withEmbedding (Some [2%float]) (contentsDoc "doc2")])
              twoEntryResponse
              eq_refl eq_refl eq_refl) as (_ & _ & Hreturns).
  destruct Hreturns as (rs & Hrun & _ & Hall).
  { intros index ids0 Hi.
    destruct index as [|[|index]]; cbn in Hi; [| |discriminate];
      injection Hi as <-; unfold lengthMismatch; cbn;
      intros [(a & [=] & _) | [(a & [= <-] & Hne) | (a & [= <-] & Hne)]];
      by apply Hne. }
  destruct (Hall 1 ["doc2"; "doc1"] eq_refl) as (bundle & Hb & _ & Hres).
  destruct (Hres 0 ltac:(cbn; lia)) as (r0 & Hr0 & Hd0 & _).
  destruct (Hres 1 ltac:(cbn; lia)) as (r1 & Hr1 & _ & _ & _ & Hd1).
  exists rs, bundle, r0, r1.
  split; [exact Hrun|]. split; [exact Hb|].
  split; [exact Hr0|].
  split; [exact (Hd0 _ _ _ eq_refl eq_refl eq_refl)|].
  split; [exact Hr1|].
  apply (Hd1 _ _ eq_refl eq_refl). cbn. lia.
Defined.

(** Normalization of a batch. *)

Lemma normalizedTo_app σ ext q doc :
  normalizedTo σ q doc -> normalizedTo (σ ++ ext) q doc.
Proof.
  destruct q as [s|v|l]; cbn; [| |done];
    intros (l & -> & Hl); exists l; (split; [done|]);
    by apply lookup_app_l_Some.
Qed.

Lemma docQueryToQueryDoc_normalizes q σ :
  exists ext,
    (docQueryToQueryDoc (ItemQuery q) σ).2 = σ ++ ext
    /\ normalizedTo (σ ++ ext) q (docQueryToQueryDoc (ItemQuery q) σ).1.
Proof.
  destruct q as [s|v|l]; cbn.
  - eexists. split; [reflexivity|]. eexists. split; [reflexivity|].
    by apply list_lookup_middle.
  - eexists. split; [reflexivity|]. eexists. split; [reflexivity|].
    by apply list_lookup_middle.
  - exists []. by rewrite app_nil_r.
Qed.

Lemma mapDocQueryToQueryDoc_batch qs : forall σ queryDocs σ1,
  mapDocQueryToQueryDoc (ItemQuery <$> qs) σ = (queryDocs, σ1) ->
  length queryDocs = length qs
  /\ (exists ext, σ1 = σ ++ ext)
  /\ forall i q, qs !! i = Some q ->
       exists doc, queryDocs !! i = Some doc /\ normalizedTo σ1 q doc.
Proof.
  induction qs as [|q qs IH]; intros σ queryDocs σ1.
  - cbn. intros [= <- <-]. split; [done|].
    split; [by exists []; rewrite app_nil_r|].
    intros i q Hq. by destruct i.
  - rewrite fmap_cons. cbn [mapDocQueryToQueryDoc].
    destruct (docQueryToQueryDoc_normalizes q σ) as (ext0 & Hext0 & Hnorm0).
    destruct (docQueryToQueryDoc (ItemQuery q) σ) as [doc σ'] eqn:Hstep.
    cbn in Hext0, Hnorm0. subst σ'.
    destruct (mapDocQueryToQueryDoc (ItemQuery <$> qs) (σ ++ ext0))
      as [docs σ''] eqn:Hrest.
    intros [= <- <-].
    destruct (IH _ _ _ Hrest) as (Hlen & [ext ->] & Hall).
    split; [cbn; by rewrite Hlen|].
    split; [exists (ext0 ++ ext); by rewrite app_assoc|].
    intros [|i] q' Hq'; cbn in Hq'.
    + injection Hq' as <-. exists doc. split; [done|].
      by apply normalizedTo_app.
    + by apply Hall.
Qed.

(** Whatever [queryDocuments] returns was reassembled by
    [multiQueryResult] from the answer of the server to its one request,
    and then shaped. *)
Lemma queryDocuments_result_assembled env collection params h r h' :
  run env (queryDocuments collection params h) = Ok (r, h') ->
  exists queryDocs docsWithEmbeddings response rs,
    queryDocs
    = (mapDocQueryToQueryDoc (toArray (query params)) (objects h)).1
    /\ getNearestNeighbors env (collection_id collection)
         (queryRequest params h' docsWithEmbeddings) = Ok response
    /\ multiQueryResult queryDocs response = Ok rs
    /\ r = shapeResult (query params) rs.
Proof.
  destruct (mapDocQueryToQueryDoc (toArray (query params)) (objects h))
    as [queryDocs σ1] eqn:Hnorm.
  rewrite (queryDocuments_run _ _ _ _ _ _ Hnorm).
  destruct (run env (computeEmbeddings _ _)) as [[d h2]|e]; cbn;
    [|discriminate].
  destruct (getNearestNeighbors env _ _) as [response|e] eqn:Hresp; cbn;
    [|discriminate].
  destruct (multiQueryResult queryDocs response) as [rs|e] eqn:Hrs; cbn;
    [|discriminate].
  intros [= <- <-]. by exists queryDocs, d, response, rs.
Qed.

(** The shape of what [queryDocuments] returns. *)

Lemma queryDocuments_result_shape env collection params h r h' :
  run env (queryDocuments collection params h) = Ok (r, h') ->
  exists rs, r = shapeResult (query params) rs.
Proof.
  intros (_ & _ & _ & rs & _ & _ & _ & ->)%queryDocuments_result_assembled.
  by exists rs.
Qed.

(** A text or an explicit query document gives a single result... *)
Lemma queryDocuments_single_text_or_object env collection params h q r h' :
  query params = Single q -> (forall v, q <> QueryVector v) ->
  run env (queryDocuments collection params h) = Ok (r, h') ->
  exists bundle, r = SingleResult bundle.
Proof.
  intros Hq Hnv [rs ->]%queryDocuments_result_shape. rewrite Hq.
  unfold shapeResult.
  destruct q as [s|v|l]; cbn; [by eexists | by destruct (Hnv v) | by eexists].
Qed.

(** ...but a raw vector, which is an array, never does. *)
Lemma queryDocuments_single_vector env collection params h v r h' :
  query params = Single (QueryVector v) ->
  run env (queryDocuments collection params h) = Ok (r, h') ->
  exists rs, r = MultiResult rs.
Proof.
  intros Hq [rs ->]%queryDocuments_result_shape. rewrite Hq. by exists rs.
Qed.

Lemma withoutContentsOrEmbedding_number σ n :
  withoutContentsOrEmbedding σ (DocNumber n) = true.
Proof. reflexivity. Qed.

Lemma queryDocuments_single_vector_rejected collection params h v :
  query params = Single (QueryVector v) -> v <> [] ->
  exists message,
    queryDocuments collection params h = Raise (Error message).
Proof.
  intros Hq Hv. unfold queryDocuments. rewrite Hq. cbn [toArray].
  assert (Hmap : mapDocQueryToQueryDoc (ItemNumber <$> v) (objects h)
                 = (DocNumber <$> v, objects h)).
  { clear. generalize (objects h).
    induction v as [|n v IH]; intros σ; cbn; [done | by rewrite IH]. }
  rewrite Hmap.
  destruct v as [|n v]; [done|].
  destruct (rejected_raises (withQueryDocs h (DocNumber <$> (n :: v)) (objects h))
              (length (arrays h)) (DocNumber <$> (n :: v)) (DocNumber n))
    as [_ ->].
  - cbn. by apply list_lookup_middle.
  - apply list_elem_of_here.
  - reflexivity.
  - cbn. by eexists.
Qed.

(** C3 (the code departs from the claim): a single raw embedding vector
    is an array, so [toArray] and the final [Array.isArray] test take it
    for a batch whose queries are its numbers; the validation of
    [computeEmbeddings] then rejects every one of them and the call
    fails instead of returning a single result. *)
Theorem C3_single_vector_is_taken_as_batch :
  queryDocuments testCollection
    (queryOnly (Single (QueryVector [1%float; 2%float; 3%float]))) emptyHeap
  = Raise (Error
      "The following documents have neither contents nor embeddings: , , ").
Proof. reflexivity. Qed.

End query.

Section query_order.

(** C6: for a batch of N queries whose embeddings were resolved and for a
    server response with N entries, [queryDocuments] returns exactly when
    every entry passes the length check of [parallelArraysToDocs]; what it
    returns is then a sequence of N bundles, the bundle at position [i]
    holding the normalized form of query [i] and, neighbour by neighbour
    in the order of the response, the documents and distances of response
    entry [i]. *)
Theorem C6_bundles_follow_query_order
    env collection params qs h queryDocs σ1 docsWithEmbeddings h2 response :
  query params = Batch qs ->
  mapDocQueryToQueryDoc (toArray (query params)) (objects h)
  = (queryDocs, σ1) ->
  run env (computeEmbeddings (length (arrays h))
             (withQueryDocs h queryDocs σ1))
  = Ok (docsWithEmbeddings, h2) ->
  getNearestNeighbors env (collection_id collection)
    (queryRequest params h2 docsWithEmbeddings) = Ok response ->
  length (response_ids response) = length qs ->
  ((exists r, run env (queryDocuments collection params h) = Ok r)
   <-> (forall index ids0,
          response_ids response !! index = Some ids0 ->
          ~ lengthMismatch (responseEntry response index ids0)))
  /\ forall r,
       run env (queryDocuments collection params h) = Ok r ->
       exists bundles,
         r = (MultiResult bundles, h2)
         /\ length bundles = length qs
         /\ forall i q, qs !! i = Some q ->
              exists doc0 ids0 bundle,
                queryDocs !! i = Some doc0
                /\ normalizedTo σ1 q doc0
                /\ response_ids response !! i = Some ids0
                /\ bundles !! i = Some bundle
                /\ queryDoc bundle = Some doc0
                /\ length (results bundle) = length ids0
                /\ forall j id0, ids0 !! j = Some id0 ->
                     results bundle !! j =
                       Some {| doc :=
                                 {| id := Some id0;
                                    embedding :=
                                      atIndex (atIndex (response_embeddings response) i) j;
                                    metadata :=
                                      optIndex (atIndex (response_metadatas response) i) j;
                                    contents :=
                                      optIndex (atIndex (response_documents response) i) j |};
                               distance := distanceAt response i j |}.
Proof.
  intros Hq Hnorm Hresolve Hapi Hlen.
  rewrite (queryDocuments_run _ _ _ _ _ _ Hnorm), Hresolve. cbn.
  rewrite Hapi. cbn. split.
  - rewrite <- multiQueryResult_Ok_iff with (queryDocs := queryDocs).
    destruct (multiQueryResult queryDocs response) as [rs|e]; cbn;
      split; intros [x Hx]; by eauto.
  - intros r.
    destruct (multiQueryResult queryDocs response) as [rs|e] eqn:Hrs; cbn;
      [|discriminate].
    intros [= <-]. exists rs. rewrite Hq. split; [done|].
    pose proof Hrs as Hinv. unfold multiQueryResult in Hinv.
    apply mapResult_Ok_inv in Hinv as [Hlenrs _].
    split; [congruence|].
    rewrite Hq in Hnorm. cbn [toArray] in Hnorm.
    destruct (mapDocQueryToQueryDoc_batch _ _ _ _ Hnorm) as (Hlenq & _ & Hdocs).
    intros i q Hi.
    destruct (Hdocs i q Hi) as (doc0 & Hdoc0 & Hnormalized).
    destruct (lookup_lt_is_Some_2 (response_ids response) i) as [ids0 Hids].
    { rewrite Hlen. by apply lookup_lt_Some in Hi. }
    destruct (multiQueryResult_lookup _ _ _ _ _ Hrs Hids)
      as (bundle & Hb & Hqd & Hlenb & Hres).
    exists doc0, ids0, bundle. repeat split; try done. congruence.
Qed.

Lemma C6_bundles_follow_query_order_witness :
  exists bundles,
    run (constantEnvironment [[1%float]; [2%float]] twoEntryResponse)
      (queryDocuments testCollection
         (queryOnly (Batch [QueryText "doc1"; QueryText "doc2"])) emptyHeap)
    = Ok (MultiResult bundles,
          oneArray [withEmbedding (Some [1%float]) (contentsDoc "doc1");
                    withEmbedding (Some [2%float]) (contentsDoc "doc2")])
    /\ length bundles = 2.
Proof.
  destruct (C6_bundles_follow_query_order
              (constantEnvironment [[1%float]; [2%float]] twoEntryResponse)
              testCollection
              (queryOnly (Batch [QueryText "doc1"; QueryText "doc2"]))
              [QueryText "doc1"; QueryText "doc2"]
              emptyHeap
              [DocRef 0; DocRef 1]
              [contentsDoc "doc1"; contentsDoc "doc2"]
              0
              (oneArray [withEmbedding (Some [1%float]) (contentsDoc "doc1");
                         withEmbedding (Some [2%float]) (contentsDoc "doc2")])
              twoEntryResponse
              eq_refl eq_refl eq_refl eq_refl eq_refl) as [Hiff Hshape].
  destruct (proj2 Hiff) as [r Hr].
  { intros index ids0 Hi.
    destruct index as [|[|index]]; cbn in Hi; [| |discriminate];
      injection Hi as <-; unfold lengthMismatch; cbn;
      intros [(a & [=] & _) | [(a & [= <-] & Hne) | (a & [= <-] & Hne)]];
      by apply Hne. }
  destruct (Hshape r Hr) as (bundles & -> & Hlen & _).
  exists bundles. split; [exact Hr | exact Hlen].
Defined.

End query_order.


(** * Further properties of the code *)

(** ** The record codec, the other way round *)

Section codec_more.

Lemma decoded_column {A B} (arr : option (list (option A))) (ids0 : list B) :
  (forall a, arr = Some a -> length a = length ids0) ->
  imap (fun index _ => optIndex arr index) ids0
  = filledColumn (length ids0) arr.
Proof.
  intros Hlen. apply list_eq. intros i. rewrite list_lookup_imap.
  unfold optIndex, atIndex, filledColumn.
  destruct arr as [a|].
  - specialize (Hlen a eq_refl).
    destruct (ids0 !! i) as [x|] eqn:Hi; cbn.
    + destruct (lookup_lt_is_Some_2 a i) as [y Hy].
      { rewrite Hlen. by apply lookup_lt_Some in Hi. }
      by rewrite Hy.
    + symmetry. apply lookup_ge_None_2. rewrite Hlen.
      by apply lookup_ge_None_1.
  - destruct (ids0 !! i) as [x|] eqn:Hi; cbn.
    + symmetry. apply lookup_replicate_2. by apply lookup_lt_Some in Hi.
    + symmetry. apply lookup_ge_None_2. rewrite length_replicate.
      by apply lookup_ge_None_1.
Qed.

(** Decoding columns whose lengths agree and encoding the documents again
    gives the columns back, a column that was missing coming back as a
    column of absent values; so the round trip is the identity on a
    complete set of columns. *)
Theorem encode_after_decode (pa : ParallelArrays) :
  lengthsAgree pa ->
  exists docs,
    parallelArraysToDocs pa = Ok docs
    /\ docsToParallelArrays docs =
         Ok {| ids := ids pa;
               embeddings :=
                 Some (filledColumn (length (ids pa)) (embeddings pa));
               documents :=
                 Some (filledColumn (length (ids pa)) (documents pa));
               metadatas :=
                 Some (filledColumn (length (ids pa)) (metadatas pa)) |}
    /\ (is_Some (embeddings pa) -> is_Some (documents pa) ->
        is_Some (metadatas pa) -> docsToParallelArrays docs = Ok pa).
Proof.
  intros Hagree. pose proof Hagree as (He & Hd & Hm).
  eexists. split; [by apply parallelArraysToDocs_Ok|].
  assert (Hcols : docsToParallelArrays
            (imap (fun index id0 =>
                     {| id := id0;
                        embedding := optIndex (embeddings pa) index;
                        contents := optIndex (documents pa) index;
                        metadata := optIndex (metadatas pa) index |})
                  (ids pa))
          = Ok {| ids := ids pa;
                  embeddings :=
                    Some (filledColumn (length (ids pa)) (embeddings pa));
                  documents :=
                    Some (filledColumn (length (ids pa)) (documents pa));
                  metadatas :=
                    Some (filledColumn (length (ids pa)) (metadatas pa)) |}).
  { rewrite docsToParallelArrays_columns, !fmap_imap. unfold compose. cbn.
    rewrite <- (decoded_column (embeddings pa) (ids pa) He).
    rewrite <- (decoded_column (documents pa) (ids pa) Hd).
    rewrite <- (decoded_column (metadatas pa) (ids pa) Hm).
    do 2 f_equal. apply list_eq. intros i. rewrite list_lookup_imap.
    by destruct (ids pa !! i). }
  split; [exact Hcols|].
  intros [e Hse] [d Hsd] [m Hsm]. rewrite Hcols.
  destruct pa as [i0 e0 d0 m0]; cbn in *; subst. reflexivity.
Qed.

Lemma encode_after_decode_witness :
  exists docs,
    parallelArraysToDocs
      {| ids := [Some "x"; Some "y"]; embeddings := None;
         documents := Some [Some "dx"; None]; metadatas := None |}
    = Ok docs
    /\ docsToParallelArrays docs =
         Ok {| ids := [Some "x"; Some "y"];
               embeddings := Some [None; None];
               documents := Some [Some "dx"; None];
               metadatas := Some [None; None] |}.
Proof.
  destruct (encode_after_decode
              {| ids := [Some "x"; Some "y"]; embeddings := None;
                 documents := Some [Some "dx"; None]; metadatas := None |})
    as (docs & Hdec & Henc & _).
  - repeat split; cbn; intros a [= <-]; reflexivity.
  - exists docs. split; [exact Hdec | exact Henc].
Defined.

End codec_more.

(** ** The embedding resolver: what it keeps and what it leaves undone *)

Section resolver_more.

Implicit Types (σ : store) (h : heap) (docs : list DocValue) (doc : DocValue).

(** The ways a successful run of [computeEmbeddings] can have gone. *)
Lemma computeEmbeddings_run_inv env a h r h' :
  run env (computeEmbeddings a h) = Ok (r, h') ->
  r = a
  /\ List.filter (withoutContentsOrEmbedding (objects h)) (arrayElements h a)
     = []
  /\ ((List.filter (missingEmbedding (objects h)) (arrayElements h a) = []
       /\ h' = h)
      \/ (List.filter (missingEmbedding (objects h)) (arrayElements h a) <> []
          /\ exists es,
               generate env
                 (getField contents (objects h) <$>
                    List.filter (missingEmbedding (objects h))
                      (arrayElements h a)) = Ok es
               /\ h' = {| objects :=
                            assignEmbeddings (objects h)
                              (List.filter (missingEmbedding (objects h))
                                 (arrayElements h a)) es 0;
                          arrays := arrays h |})).
Proof.
  unfold computeEmbeddings.
  destruct (List.filter (withoutContentsOrEmbedding _) _) as [|x xs] eqn:Hv.
  - cbn [length]. rewrite (bool_decide_eq_false_2 (0 < 0)) by lia.
    destruct (List.filter (missingEmbedding _) _) as [|y ys] eqn:Hm.
    + cbn. intros [= <- <-]. repeat split. by left.
    + rewrite bool_decide_eq_false_2 by done. cbn.
      destruct (generate env _) as [es|e] eqn:Hes; [|discriminate].
      intros [= <- <-]. repeat split. right. split; [done|]. by exists es.
  - rewrite bool_decide_eq_true_2 by (cbn; lia). discriminate.
Qed.

Lemma setEmbedding_fields σ doc e l d :
  σ !! l = Some d ->
  exists d',
    setEmbedding σ doc e !! l = Some d'
    /\ id d' = id d /\ contents d' = contents d /\ metadata d' = metadata d.
Proof.
  intros Hl. destruct doc as [l'|n]; cbn; [|by exists d].
  destruct (decide (l' = l)) as [->|Hne].
  - rewrite list_lookup_alter_eq, Hl. by eexists.
  - rewrite list_lookup_alter_ne by done. by exists d.
Qed.

Lemma assignEmbeddings_fields docs : forall σ es i l d,
  σ !! l = Some d ->
  exists d',
    assignEmbeddings σ docs es i !! l = Some d'
    /\ id d' = id d /\ contents d' = contents d /\ metadata d' = metadata d.
Proof.
  induction docs as [|doc docs IH]; intros σ es i l d Hl; cbn.
  - by exists d.
  - destruct (setEmbedding_fields σ doc (es !! i) l d Hl)
      as (d1 & Hl1 & Hi1 & Hc1 & Hm1).
    destruct (IH _ es (S i) l d1 Hl1) as (d2 & Hl2 & Hi2 & Hc2 & Hm2).
    exists d2. repeat split; congruence.
Qed.

(** Whatever a successful [computeEmbeddings] does to the heap, it builds
    and changes no array, creates and drops no object, and keeps the id,
    the contents and the metadata of every object; an object that had an
    embedding, or that is not in the array, is left exactly as it was. *)
Theorem computeEmbeddings_frame env a h r h' :
  run env (computeEmbeddings a h) = Ok (r, h') ->
  arrays h' = arrays h
  /\ length (objects h') = length (objects h)
  /\ forall l d, objects h !! l = Some d ->
       exists d',
         objects h' !! l = Some d'
         /\ id d' = id d /\ contents d' = contents d
         /\ metadata d' = metadata d
         /\ (is_Some (embedding d) -> d' = d)
         /\ (DocRef l ∉ arrayElements h a -> d' = d).
Proof.
  intros (-> & _ & [[_ ->] | (_ & es & _ & ->)])%computeEmbeddings_run_inv.
  - repeat split. intros l d Hl. exists d. by repeat split.
  - cbn. split; [done|]. split; [apply length_assignEmbeddings|].
    intros l d Hl.
    destruct (assignEmbeddings_fields
                (List.filter (missingEmbedding (objects h)) (arrayElements h a))
                (objects h) es 0 l d Hl) as (d' & Hl' & Hi & Hc & Hm).
    exists d'. repeat split; try done.
    + intros Hsome.
      rewrite assignEmbeddings_other, Hl in Hl'; [congruence|].
      intros [_ Hmiss]%elem_of_filter_bool.
      apply missingEmbedding_true in Hmiss. cbn in Hmiss.
      rewrite Hl in Hmiss. cbn in Hmiss. rewrite Hmiss in Hsome.
      by destruct Hsome.
    + intros Hnot.
      rewrite assignEmbeddings_other, Hl in Hl'; [congruence|].
      by intros [Hin _]%elem_of_filter_bool.
Qed.

Lemma computeEmbeddings_frame_witness :
  exists h',
    run (constantEnvironment [[2%float]] emptyResponse)
      (computeEmbeddings 0 (oneArray [textDoc "a" "x"])) = Ok (0, h')
    /\ arrays h' = [[DocRef 0]].
Proof.
  eexists. split; [reflexivity|].
  exact (proj1 (computeEmbeddings_frame
                  (constantEnvironment [[2%float]] emptyResponse)
                  0 (oneArray [textDoc "a" "x"]) 0 _ eq_refl)).
Defined.

(** After the writes every object that had an embedding or was written to
    has one, when there are vectors enough. *)
Lemma assignEmbeddings_embedded docs : forall σ es i l,
  i + length docs <= length es ->
  is_Some (σ !! l) ->
  is_Some (σ !! l ≫= embedding) \/ DocRef l ∈ docs ->
  is_Some (assignEmbeddings σ docs es i !! l ≫= embedding).
Proof.
  induction docs as [|doc docs IH]; intros σ es i l Hlen [d Hl] Hor; cbn.
  - destruct Hor as [H | H]; [done | by apply elem_of_nil in H].
  - cbn in Hlen. apply IH; [lia | |].
    + destruct (setEmbedding_fields σ doc (es !! i) l d Hl) as (d' & -> & _).
      by eexists.
    + destruct doc as [l'|n]; [destruct (decide (l' = l)) as [->|Hne]|].
      * left. rewrite setEmbedding_same, Hl. cbn.
        apply lookup_lt_is_Some_2. lia.
      * rewrite setEmbedding_other by congruence.
        destruct Hor as [H | [H | H]%elem_of_cons]; [by left | congruence | by right].
      * cbn. destruct Hor as [H | [H | H]%elem_of_cons];
          [by left | discriminate | by right].
Qed.

(** With a capability that answers every text, every document of the
    array carries an embedding once [computeEmbeddings] has returned. *)
Lemma resolved_all_embedded env a h r h' docs :
  arrays h !! a = Some docs ->
  answersEveryText env ->
  run env (computeEmbeddings a h) = Ok (r, h') ->
  forall doc, doc ∈ docs -> is_Some (getField embedding (objects h') doc).
Proof.
  intros Ha Hcontract Hrun.
  pose proof (computeEmbeddings_run_inv _ _ _ _ _ Hrun) as (-> & Hv & Hcases).
  rewrite (arrayElements_Some _ _ _ Ha) in Hv, Hcases.
  intros doc Hin.
  pose proof (proj1 (filter_nil_iff _ _) Hv doc Hin) as Hok.
  destruct (missingEmbedding (objects h) doc) eqn:Hmiss.
  - destruct (validated_is_object _ _ Hok Hmiss)
      as (l & d & s & -> & Hl & _).
    destruct Hcases as [[Hnil _] | (_ & es & Hes & ->)].
    + pose proof (proj1 (filter_nil_iff _ _) Hnil _ Hin). congruence.
    + cbn. apply assignEmbeddings_embedded.
      * apply Hcontract in Hes. rewrite length_fmap in Hes. lia.
      * by eexists.
      * right. by apply elem_of_filter_bool.
  - apply negb_false_iff, bool_decide_eq_true in Hmiss.
    destruct Hcases as [[_ ->] | (_ & es & _ & ->)]; [done|].
    destruct doc as [l|n]; [|by destruct Hmiss]. cbn in *.
    rewrite assignEmbeddings_other; [done|].
    intros [_ Hm]%elem_of_filter_bool.
    apply missingEmbedding_true in Hm. cbn in Hm. rewrite Hm in Hmiss.
    by destruct Hmiss.
Qed.

(** Resolution is idempotent for a capability that answers every text: once
    [computeEmbeddings] has returned, every document of the array carries
    an embedding, and a second call returns at once without calling
    [generate]. *)
Theorem computeEmbeddings_twice env a h r h' docs :
  arrays h !! a = Some docs ->
  answersEveryText env ->
  run env (computeEmbeddings a h) = Ok (r, h') ->
  (forall doc, doc ∈ docs -> is_Some (getField embedding (objects h') doc))
  /\ computeEmbeddings r h' = Return (r, h')
  /\ forall env', generateCalls env' (computeEmbeddings r h') = [].
Proof.
  intros Ha Hcontract Hrun.
  pose proof (resolved_all_embedded _ _ _ _ _ _ Ha Hcontract Hrun) as Hall.
  split; [exact Hall|].
  destruct (computeEmbeddings_returns_argument _ _ _ _ _ Hrun) as [-> Harr].
  assert (Harr' : arrays h' !! a = Some docs) by by rewrite Harr.
  assert (Hret : computeEmbeddings a h' = Return (a, h')).
  { apply (computeEmbeddings_skip h' a docs Harr'); apply filter_nil_iff;
      intros doc Hin; specialize (Hall doc Hin).
    - unfold withoutContentsOrEmbedding.
      rewrite (bool_decide_eq_true_2 _ Hall). apply andb_false_r.
    - unfold missingEmbedding. by rewrite (bool_decide_eq_true_2 _ Hall). }
  split; [exact Hret|]. intros env'. by rewrite Hret.
Qed.

Lemma uniformEnvironment_answers v response :
  answersEveryText (uniformEnvironment v response).
Proof. intros texts es [= <-]. by rewrite length_replicate. Qed.

Lemma computeEmbeddings_twice_witness :
  computeEmbeddings 0
    (oneArray [withEmbedding (Some [2%float]) (textDoc "a" "x");
               withEmbedding (Some [7%float]) (textDoc "b" "y")])
  = Return (0,
            oneArray [withEmbedding (Some [2%float]) (textDoc "a" "x");
                      withEmbedding (Some [7%float]) (textDoc "b" "y")]).
Proof.
  exact (proj1 (proj2 (computeEmbeddings_twice
    (uniformEnvironment [2%float] emptyResponse) 0
    (oneArray [textDoc "a" "x";
               withEmbedding (Some [7%float]) (textDoc "b" "y")])
    0 _ [DocRef 0; DocRef 1] eq_refl
    (uniformEnvironment_answers _ _) eq_refl))).
Defined.

(** The answer of the capability is not checked against the number of
    texts.  For documents that are distinct objects, whatever list [es]
    the capability answers with, the call succeeds and the i-th
    embedding-less document gets [es !! i]: nothing at all when the answer
    is too short.  The documents still without an embedding afterwards are
    exactly those whose position the answer did not reach. *)
Theorem computeEmbeddings_short_answer env a h docs es :
  arrays h !! a = Some docs ->
  (forall doc, doc ∈ docs ->
               withoutContentsOrEmbedding (objects h) doc = false) ->
  List.filter (missingEmbedding (objects h)) docs <> [] ->
  NoDup (List.filter (missingEmbedding (objects h)) docs) ->
  generate env
    (getField contents (objects h) <$>
       List.filter (missingEmbedding (objects h)) docs) = Ok es ->
  exists h',
    run env (computeEmbeddings a h) = Ok (a, h')
    /\ (forall i doc,
          List.filter (missingEmbedding (objects h)) docs !! i = Some doc ->
          getField embedding (objects h') doc = es !! i)
    /\ (forall doc,
          doc ∈ List.filter (missingEmbedding (objects h')) docs <->
          exists i,
            length es <= i
            /\ List.filter (missingEmbedding (objects h)) docs !! i
               = Some doc).
Proof.
  intros Ha Hvalid Hm Hnodup Hes.
  assert (Hv : List.filter (withoutContentsOrEmbedding (objects h)) docs = [])
    by by apply filter_nil_iff.
  set (missing := List.filter (missingEmbedding (objects h)) docs) in *.
  eexists. split.
  { rewrite (computeEmbeddings_generate h a docs Ha Hv Hm). cbn.
    fold missing. by rewrite Hes. }
  cbn.
  assert (Hwritten : forall i doc, missing !! i = Some doc ->
            getField embedding (assignEmbeddings (objects h) missing es 0) doc
            = es !! i).
  { intros i doc Hi.
    assert (Hmem : doc ∈ missing) by (apply list_elem_of_lookup; eauto).
    apply elem_of_filter_bool in Hmem as [Hin Hmiss].
    destruct (validated_is_object _ _ (Hvalid doc Hin) Hmiss)
      as (l & d & s & -> & Hl & _).
    cbn. rewrite (assignEmbeddings_last missing (objects h) es 0 i l Hi).
    - by rewrite Hl.
    - intros j Hlt Hj. pose proof (NoDup_lookup _ _ _ _ Hnodup Hi Hj). lia. }
  split; [exact Hwritten|].
  intros doc. rewrite elem_of_filter_bool, missingEmbedding_true. split.
  - intros [Hin Hnone].
    destruct (missingEmbedding (objects h) doc) eqn:Hmiss.
    + assert (Hmem : doc ∈ missing) by by apply elem_of_filter_bool.
      apply list_elem_of_lookup in Hmem as [i Hi]. exists i. split; [|done].
      rewrite (Hwritten i doc Hi) in Hnone. by apply lookup_ge_None_1.
    + exfalso. apply negb_false_iff, bool_decide_eq_true in Hmiss.
      destruct doc as [l|n]; [|by destruct Hmiss]. cbn in *.
      rewrite assignEmbeddings_other in Hnone.
      * rewrite Hnone in Hmiss. by destruct Hmiss.
      * intros [_ Hm']%elem_of_filter_bool.
        apply missingEmbedding_true in Hm'. cbn in Hm'.
        rewrite Hm' in Hmiss. by destruct Hmiss.
  - intros (i & Hle & Hi).
    assert (Hmem : doc ∈ missing) by (apply list_elem_of_lookup; eauto).
    apply elem_of_filter_bool in Hmem as [Hin _]. split; [done|].
    rewrite (Hwritten i doc Hi). by apply lookup_ge_None_2.
Qed.

Lemma computeEmbeddings_short_answer_witness :
  exists h',
    run (constantEnvironment [[2%float]] emptyResponse)
      (computeEmbeddings 0 (oneArray [textDoc "a" "x"; textDoc "b" "y"]))
    = Ok (0, h')
    /\ getField embedding (objects h') (DocRef 0) = Some [2%float]
    /\ getField embedding (objects h') (DocRef 1) = None.
Proof.
  destruct (computeEmbeddings_short_answer
              (constantEnvironment [[2%float]] emptyResponse) 0
              (oneArray [textDoc "a" "x"; textDoc "b" "y"])
              [DocRef 0; DocRef 1] [[2%float]])
    as (h' & Hrun & Hwritten & _).
  - reflexivity.
  - intros doc Hin. each_element Hin.
  - discriminate.
  - cbn. apply NoDup_cons. split.
    + intros Hin. apply list_elem_of_singleton in Hin. discriminate.
    + apply NoDup_singleton.
  - reflexivity.
  - exists h'. split; [exact Hrun|]. split.
    + exact (Hwritten 0 (DocRef 0) eq_refl).
    + exact (Hwritten 1 (DocRef 1) eq_refl).
Defined.

End resolver_more.

(** ** Normalization of the queries *)

Section normalization_more.

Implicit Types (σ : store) (qs : list DocQuery).

Lemma mapDocQueryToQueryDoc_extends items : forall σ,
  exists ext,
    (mapDocQueryToQueryDoc items σ).2 = σ ++ ext
    /\ length (mapDocQueryToQueryDoc items σ).1 = length items.
Proof.
  induction items as [|item items IH]; intros σ; cbn.
  - exists []. by rewrite app_nil_r.
  - destruct (docQueryToQueryDoc item σ) as [doc σ'] eqn:Hstep.
    assert (Hext : exists ext0, σ' = σ ++ ext0).
    { destruct item as [[s|v|l]|n]; cbn in Hstep; injection Hstep as <- <-;
        try (by eexists); exists []; by rewrite app_nil_r. }
    destruct Hext as [ext0 ->].
    destruct (IH (σ ++ ext0)) as (ext & Hext & Hlen).
    destruct (mapDocQueryToQueryDoc items (σ ++ ext0)) as [docs σ''].
    cbn in *. subst. exists (ext0 ++ ext).
    split; [by rewrite app_assoc | by rewrite Hlen].
Qed.

(** Normalizing a batch leaves every object of the caller as it is and
    appends one object per text or vector query, none per explicit query
    document.  An explicit query document is handed on as the caller's own
    object; the object of a text or vector query is a new one, placed after
    the objects built for the queries before it, so no two queries share
    it. *)
Theorem normalization_allocates qs : forall σ,
  exists ext,
    (mapDocQueryToQueryDoc (ItemQuery <$> qs) σ).2 = σ ++ ext
    /\ length ext = length (List.filter allocates qs)
    /\ forall i q, qs !! i = Some q ->
         (mapDocQueryToQueryDoc (ItemQuery <$> qs) σ).1 !! i
         = Some (match q with
                 | QueryObject l => DocRef l
                 | _ => DocRef (length σ
                                + length (List.filter allocates (take i qs)))
                 end).
Proof.
  induction qs as [|q qs IH]; intros σ.
  - exists []. cbn. rewrite app_nil_r. repeat split. intros i q Hq.
    by destruct i.
  - rewrite fmap_cons. cbn [mapDocQueryToQueryDoc].
    destruct q as [s|v|l]; cbn [docQueryToQueryDoc].
    + destruct (IH (σ ++ [contentsDoc s])) as (ext & Hext & Hlen & Hat).
      destruct (mapDocQueryToQueryDoc (ItemQuery <$> qs) _) as [docs σ''].
      cbn in *. subst. exists (contentsDoc s :: ext).
      split; [by rewrite <- app_assoc|]. split; [cbn; by rewrite Hlen|].
      intros [|i] q Hq; cbn in *.
      * injection Hq as <-. by rewrite Nat.add_0_r.
      * etransitivity; [exact (Hat i q Hq)|]. rewrite length_app. cbn.
        destruct q; do 2 f_equal; lia.
    + destruct (IH (σ ++ [vectorDoc v])) as (ext & Hext & Hlen & Hat).
      destruct (mapDocQueryToQueryDoc (ItemQuery <$> qs) _) as [docs σ''].
      cbn in *. subst. exists (vectorDoc v :: ext).
      split; [by rewrite <- app_assoc|]. split; [cbn; by rewrite Hlen|].
      intros [|i] q Hq; cbn in *.
      * injection Hq as <-. by rewrite Nat.add_0_r.
      * etransitivity; [exact (Hat i q Hq)|]. rewrite length_app. cbn.
        destruct q; do 2 f_equal; lia.
    + destruct (IH σ) as (ext & Hext & Hlen & Hat).
      destruct (mapDocQueryToQueryDoc (ItemQuery <$> qs) _) as [docs σ''].
      cbn in *. subst. exists ext.
      split; [done|]. split; [done|].
      intros [|i] q Hq; cbn in *.
      * by injection Hq as <-.
      * exact (Hat i q Hq).
Qed.

End normalization_more.

(** ** The fan-out of [queryDocuments] *)

Section fan_out.

Implicit Types (σ : store) (h : heap).

Lemma normalize_vectors vs : forall σ,
  mapDocQueryToQueryDoc (ItemQuery <$> (QueryVector <$> vs)) σ
  = (DocRef <$> seq (length σ) (length vs), σ ++ (vectorDoc <$> vs)).
Proof.
  induction vs as [|v vs IH]; intros σ; cbn.
  - by rewrite app_nil_r.
  - rewrite IH, length_app, <- app_assoc. cbn. by rewrite Nat.add_1_r.
Qed.

Lemma normalize_texts ss : forall σ,
  mapDocQueryToQueryDoc (ItemQuery <$> (QueryText <$> ss)) σ
  = (DocRef <$> seq (length σ) (length ss), σ ++ (contentsDoc <$> ss)).
Proof.
  induction ss as [|s ss IH]; intros σ; cbn.
  - by rewrite app_nil_r.
  - rewrite IH, length_app, <- app_assoc. cbn. by rewrite Nat.add_1_r.
Qed.

Lemma lookup_fresh_ref {B} (xs : list B) n i :
  i < length xs ->
  (DocRef <$> seq n (length xs)) !! i = Some (DocRef (n + i)).
Proof. intros Hi. by rewrite list_lookup_fmap, lookup_seq_lt. Qed.

Lemma lookup_fresh_object {B} (mk : B -> BaseChromaDoc) xs σ i x :
  xs !! i = Some x -> (σ ++ (mk <$> xs)) !! (length σ + i) = Some (mk x).
Proof.
  intros Hx. rewrite lookup_app_r by lia.
  replace (length σ + i - length σ) with i by lia.
  by rewrite list_lookup_fmap, Hx.
Qed.

(** The fields of the objects built for the queries [xs], read through
    their references. *)
Lemma getField_fresh {A B} (field : BaseChromaDoc -> option A)
    (mk : B -> BaseChromaDoc) xs σ :
  getField field (σ ++ (mk <$> xs)) <$> (DocRef <$> seq (length σ) (length xs))
  = (fun x => field (mk x)) <$> xs.
Proof.
  apply list_eq. intros i. rewrite (list_lookup_fmap _ xs).
  destruct (xs !! i) as [x|] eqn:Hx; cbn.
  - rewrite list_lookup_fmap, lookup_fresh_ref by by eapply lookup_lt_Some.
    cbn. by rewrite (lookup_fresh_object mk xs σ i x Hx).
  - apply lookup_ge_None_2. rewrite !length_fmap, length_seq.
    by apply lookup_ge_None_1.
Qed.

Lemma filter_all {A} (f : A -> bool) (l : list A) :
  (forall x, x ∈ l -> f x = true) -> List.filter f l = l.
Proof.
  induction l as [|a l IH]; intros Hall; cbn; [done|].
  rewrite (Hall a (list_elem_of_here _ _)), IH; [done|].
  intros x Hx. apply Hall. by apply list_elem_of_further.
Qed.

Lemma elem_of_fresh_refs {B} (xs : list B) n doc :
  doc ∈ DocRef <$> seq n (length xs) ->
  exists i x, doc = DocRef (n + i) /\ xs !! i = Some x.
Proof.
  intros (l & -> & Hl)%list_elem_of_fmap. apply elem_of_seq in Hl.
  destruct (lookup_lt_is_Some_2 xs (l - n)) as [x Hx]; [lia|].
  exists (l - n), x. split; [f_equal; lia | done].
Qed.

(** A batch of raw vectors never reaches the embedding function: the call
    starts with the similarity request, which carries exactly the vectors
    of the batch, in order. *)
Theorem queryDocuments_vector_batch collection params vs h :
  query params = Batch (QueryVector <$> vs) ->
  (exists request k,
     queryDocuments collection params h
     = GetNearestNeighbors (collection_id collection) request k
     /\ query_embeddings request = Some <$> vs)
  /\ forall env, generateCalls env (queryDocuments collection params h) = [].
Proof.
  intros Hq.
  set (σ1 := objects h ++ (vectorDoc <$> vs)).
  set (docs := DocRef <$> seq (length (objects h)) (length vs)).
  assert (Harr : arrays (withQueryDocs h docs σ1) !! length (arrays h)
                 = Some docs) by (cbn; by apply list_lookup_middle).
  assert (Hemb : forall doc, doc ∈ docs ->
            is_Some (getField embedding σ1 doc)).
  { intros doc (i & v & -> & Hv)%elem_of_fresh_refs. cbn. unfold σ1.
    rewrite (lookup_fresh_object vectorDoc vs _ i v Hv). by eexists. }
  assert (Hskip : computeEmbeddings (length (arrays h))
                    (withQueryDocs h docs σ1)
                  = Return (length (arrays h), withQueryDocs h docs σ1)).
  { apply (computeEmbeddings_skip _ _ docs Harr); apply filter_nil_iff;
      intros doc Hin; specialize (Hemb doc Hin); cbn.
    - unfold withoutContentsOrEmbedding.
      rewrite (bool_decide_eq_true_2 _ Hemb). apply andb_false_r.
    - unfold missingEmbedding. by rewrite (bool_decide_eq_true_2 _ Hemb). }
  assert (Htree : queryDocuments collection params h
            = GetNearestNeighbors (collection_id collection)
                (queryRequest params (withQueryDocs h docs σ1)
                   (length (arrays h)))
                (fun response =>
                   prog_bind
                     (liftResult
                        (multiQueryResult
                           (arrayElements (withQueryDocs h docs σ1)
                              (length (arrays h))) response))
                     (fun rs =>
                        Return (shapeResult (query params) rs,
                                withQueryDocs h docs σ1)))).
  { unfold queryDocuments. rewrite Hq. cbn [toArray].
    rewrite normalize_vectors. fold σ1 docs. rewrite Hskip. reflexivity. }
  split.
  - eexists _, _. split; [exact Htree|]. cbn.
    rewrite (arrayElements_Some _ _ _ Harr). unfold docs, σ1.
    by rewrite getField_fresh.
  - intros env. rewrite Htree. cbn.
    destruct (getNearestNeighbors env _ _) as [response|e]; [|done].
    by destruct (multiQueryResult _ response).
Qed.

Lemma queryDocuments_vector_batch_witness :
  exists request k,
    queryDocuments testCollection
      (queryOnly (Batch [QueryVector [1%float; 2%float];
                         QueryVector [3%float]])) emptyHeap
    = GetNearestNeighbors "c0" request k
    /\ query_embeddings request
       = [Some [1%float; 2%float]; Some [3%float]].
Proof.
  exact (proj1 (queryDocuments_vector_batch testCollection
    (queryOnly (Batch [QueryVector [1%float; 2%float];
                       QueryVector [3%float]]))
    [[1%float; 2%float]; [3%float]] emptyHeap eq_refl)).
Defined.

(** Text queries, one or a batch of them, all non-empty: the call asks the
    embedding function once, for all the texts in order; whatever vectors
    [es] it answers with, one similarity request follows, with one
    embedding slot per query, the i-th slot holding [es !! i] (nothing when
    the answer is too short). *)
Theorem queryDocuments_text_queries collection params ss h :
  toArray (query params) = ItemQuery <$> (QueryText <$> ss) ->
  ss <> [] ->
  Forall (fun s => s <> "") ss ->
  exists k,
    queryDocuments collection params h = Generate (Some <$> ss) k
    /\ forall es,
         exists request k',
           k es = GetNearestNeighbors (collection_id collection) request k'
           /\ length (query_embeddings request) = length ss
           /\ forall i, i < length ss ->
                query_embeddings request !! i = Some (es !! i).
Proof.
  intros Hq Hne Hss.
  set (σ1 := objects h ++ (contentsDoc <$> ss)).
  set (docs := DocRef <$> seq (length (objects h)) (length ss)).
  assert (Harr : arrays (withQueryDocs h docs σ1) !! length (arrays h)
                 = Some docs) by (cbn; by apply list_lookup_middle).
  assert (Hobj : forall doc, doc ∈ docs ->
            exists i s, doc = DocRef (length (objects h) + i)
                        /\ ss !! i = Some s
                        /\ σ1 !! (length (objects h) + i)
                           = Some (contentsDoc s)).
  { intros doc (i & s & -> & Hs)%elem_of_fresh_refs. exists i, s.
    repeat split; [done|]. by apply lookup_fresh_object. }
  assert (Hv : List.filter (withoutContentsOrEmbedding σ1) docs = []).
  { apply filter_nil_iff. intros doc (i & s & -> & Hs & Hl)%Hobj.
    unfold withoutContentsOrEmbedding. cbn. rewrite Hl. cbn.
    rewrite Forall_forall in Hss.
    assert (s <> "") as Hs' by (apply Hss; apply list_elem_of_lookup; eauto).
    apply String.eqb_neq in Hs'. by rewrite Hs'. }
  assert (Hm : List.filter (missingEmbedding σ1) docs = docs).
  { apply filter_all. intros doc (i & s & -> & Hs & Hl)%Hobj.
    apply missingEmbedding_true. cbn. by rewrite Hl. }
  assert (Hdocs : docs <> []).
  { unfold docs. destruct ss; [done | discriminate]. }
  pose proof (computeEmbeddings_generate (withQueryDocs h docs σ1)
                (length (arrays h)) docs Harr Hv) as Hgen.
  cbn [objects withQueryDocs] in Hgen. rewrite Hm in Hgen.
  specialize (Hgen Hdocs).
  assert (Htexts : getField contents σ1 <$> docs = Some <$> ss).
  { unfold docs, σ1. by rewrite getField_fresh. }
  rewrite Htexts in Hgen.
  eexists. split.
  { unfold queryDocuments. rewrite Hq, normalize_texts. fold σ1 docs.
    rewrite Hgen. reflexivity. }
  intros es. eexists _, _. split; [reflexivity|]. cbn.
  unfold arrayElements. cbn. rewrite list_lookup_middle by done. cbn.
  split; [rewrite length_fmap; unfold docs; by rewrite length_fmap, length_seq|].
  intros i Hi. rewrite list_lookup_fmap.
  assert (Hdi : docs !! i = Some (DocRef (length (objects h) + i)))
    by by apply lookup_fresh_ref.
  rewrite Hdi. cbn. f_equal.
  destruct (lookup_lt_is_Some_2 ss i Hi) as [s Hs].
  rewrite (assignEmbeddings_last docs σ1 es 0 i (length (objects h) + i)).
  - unfold σ1. by rewrite (lookup_fresh_object contentsDoc ss _ i s Hs).
  - exact Hdi.
  - intros j Hlt Hj. unfold docs in Hj.
    rewrite list_lookup_fmap in Hj.
    destruct (seq _ _ !! j) as [l|] eqn:Hl; [|done].
    apply lookup_seq in Hl as [-> _]. injection Hj as Hj. lia.
Qed.

Lemma queryDocuments_text_queries_witness :
  exists k,
    queryDocuments testCollection (queryOnly (Single (QueryText "doc1")))
      emptyHeap
    = Generate [Some "doc1"] k.
Proof.
  destruct (queryDocuments_text_queries testCollection
              (queryOnly (Single (QueryText "doc1"))) ["doc1"] emptyHeap)
    as (k & Hk & _).
  - reflexivity.
  - discriminate.
  - apply Forall_cons. split; [discriminate | apply Forall_nil_2].
  - by exists k.
Defined.

Lemma normalized_empty_text items : forall σ,
  ItemQuery (QueryText "") ∈ items ->
  exists l,
    DocRef l ∈ (mapDocQueryToQueryDoc items σ).1
    /\ (mapDocQueryToQueryDoc items σ).2 !! l = Some (contentsDoc "").
Proof.
  induction items as [|item items IH]; intros σ Hin.
  - by apply elem_of_nil in Hin.
  - cbn [mapDocQueryToQueryDoc].
    apply elem_of_cons in Hin as [<- | Hin].
    + cbn [docQueryToQueryDoc].
      destruct (mapDocQueryToQueryDoc_extends items (σ ++ [contentsDoc ""]))
        as (ext & Hext & _).
      destruct (mapDocQueryToQueryDoc items _) as [docs σ''].
      cbn in *. subst. exists (length σ). split; [apply list_elem_of_here|].
      rewrite <- app_assoc. by apply list_lookup_middle.
    + destruct (docQueryToQueryDoc item σ) as [doc σ'].
      destruct (IH σ' Hin) as (l & Hl & Hobj).
      destruct (mapDocQueryToQueryDoc items σ') as [docs σ''].
      cbn in *. exists l. split; [by apply list_elem_of_further | done].
Qed.

(** An empty query text is refused before anything is asked of the
    embedding function or of the server: a call whose query is, or whose
    batch contains, the empty string throws the missing-content error. *)
Theorem queryDocuments_empty_text collection params h :
  ItemQuery (QueryText "") ∈ toArray (query params) ->
  (exists ids0,
     queryDocuments collection params h
     = Raise (Error (missingContentPrefix +:+ join ", " ids0)))
  /\ forall env,
       generateCalls env (queryDocuments collection params h) = []
       /\ neighborRequests env (queryDocuments collection params h) = [].
Proof.
  intros Hin.
  destruct (normalized_empty_text _ (objects h) Hin) as (l & Hl & Hobj).
  assert (Hraise : exists ids0,
            queryDocuments collection params h
            = Raise (Error (missingContentPrefix +:+ join ", " ids0))).
  { unfold queryDocuments.
    destruct (mapDocQueryToQueryDoc (toArray (query params)) (objects h))
      as [docs σ1]. cbn in Hl, Hobj.
    destruct (rejected_raises (withQueryDocs h docs σ1) (length (arrays h))
                docs (DocRef l)) as [_ ->].
    - cbn. by apply list_lookup_middle.
    - done.
    - unfold withoutContentsOrEmbedding. cbn. by rewrite Hobj.
    - cbn. by eexists. }
  split; [exact Hraise|]. destruct Hraise as [ids0 ->]. by intros env.
Qed.

Lemma queryDocuments_empty_text_witness :
  exists ids0,
    queryDocuments testCollection
      (queryOnly (Batch [QueryText "doc1"; QueryText ""])) emptyHeap
    = Raise (Error (missingContentPrefix +:+ join ", " ids0)).
Proof.
  refine (proj1 (queryDocuments_empty_text testCollection
    (queryOnly (Batch [QueryText "doc1"; QueryText ""])) emptyHeap _)).
  apply list_elem_of_further, list_elem_of_here.
Defined.

End fan_out.

(** ** The fan-in of [queryDocuments] and its effects on the caller *)

Section fan_in.

Implicit Types (σ : store) (h : heap).

(** [computeEmbeddings] is one of three trees. *)
Lemma computeEmbeddings_shape a h :
  (exists e, computeEmbeddings a h = Raise e)
  \/ computeEmbeddings a h = Return (a, h)
  \/ exists texts f,
       computeEmbeddings a h
       = Generate texts (fun es => Return (a, f es)).
Proof.
  unfold computeEmbeddings.
  destruct (bool_decide _); [left; by eexists|].
  destruct (bool_decide (_ = 0)); [right; by left|].
  right. right. by eexists _, _.
Qed.

(** One call of [queryDocuments] asks the embedding function at most once
    and the server at most once, whatever the query, the heap and the
    answers are. *)
Theorem queryDocuments_one_round_trip env collection params h :
  length (generateCalls env (queryDocuments collection params h)) <= 1
  /\ length (neighborRequests env (queryDocuments collection params h)) <= 1.
Proof.
  unfold queryDocuments.
  destruct (mapDocQueryToQueryDoc _ _) as [docs σ1].
  destruct (computeEmbeddings_shape (length (arrays h))
              (withQueryDocs h docs σ1))
    as [[e ->] | [-> | (texts & f & ->)]]; cbn.
  - lia.
  - destruct (getNearestNeighbors env _ _) as [response|e]; cbn; [|lia].
    destruct (multiQueryResult _ response); cbn; lia.
  - destruct (generate env texts) as [es|e]; cbn; [|lia].
    destruct (getNearestNeighbors env _ _) as [response|e]; cbn; [|lia].
    destruct (multiQueryResult _ response); cbn; lia.
Qed.

(** For an input that is an array, the result has one bundle per entry of
    the response, not per query: a response with more entries than there
    were queries gives bundles without a query document. *)
Theorem queryDocuments_bundle_per_entry env collection params h r h' :
  run env (queryDocuments collection params h) = Ok (r, h') ->
  isArray (query params) = true ->
  exists docsWithEmbeddings response bundles,
    getNearestNeighbors env (collection_id collection)
      (queryRequest params h' docsWithEmbeddings) = Ok response
    /\ r = MultiResult bundles
    /\ length bundles = length (response_ids response)
    /\ forall i bundle,
         bundles !! i = Some bundle ->
         length (toArray (query params)) <= i ->
         queryDoc bundle = None.
Proof.
  intros (queryDocs & d & response & rs & Hdocs & Hresp & Hrs & ->)
    %queryDocuments_result_assembled Harray.
  exists d, response, rs. split; [done|].
  unfold shapeResult. rewrite Harray. split; [done|].
  pose proof Hrs as Hinv. unfold multiQueryResult in Hinv.
  apply mapResult_Ok_inv in Hinv as [Hlen _]. split; [done|].
  intros i bundle Hb Hle.
  destruct (lookup_lt_is_Some_2 (response_ids response) i) as [ids0 Hids].
  { rewrite <- Hlen. by apply lookup_lt_Some in Hb. }
  destruct (multiQueryResult_lookup _ _ _ _ _ Hrs Hids)
    as (bundle' & Hb' & Hqd & _).
  assert (bundle' = bundle) as -> by congruence.
  rewrite Hqd. apply lookup_ge_None_2.
  destruct (mapDocQueryToQueryDoc_extends (toArray (query params)) (objects h))
    as (_ & _ & Hlenq).
  rewrite Hdocs, Hlenq. exact Hle.
Qed.

Lemma queryDocuments_bundle_per_entry_witness :
  exists bundles h',
    run (uniformEnvironment [1%float] twoEntryResponse)
      (queryDocuments testCollection (queryOnly (Batch [QueryText "doc1"]))
         emptyHeap)
    = Ok (MultiResult bundles, h')
    /\ length bundles = 2
    /\ forall bundle, bundles !! 1 = Some bundle -> queryDoc bundle = None.
Proof.
  destruct (queryDocuments_bundle_per_entry
              (uniformEnvironment [1%float] twoEntryResponse)
              testCollection (queryOnly (Batch [QueryText "doc1"]))
              emptyHeap _ _ eq_refl eq_refl)
    as (d & response & bundles & Hresp & Hr & Hlen & Hextra).
  injection Hresp as <-.
  exists bundles, (oneArray [withEmbedding (Some [1%float])
                               (contentsDoc "doc1")]).
  split; [by rewrite <- Hr|]. split; [exact Hlen|].
  intros bundle Hb. apply (Hextra 1 bundle Hb). cbn. lia.
Defined.

(** For an input that is not an array, take a call whose query was
    resolved and whose request the server answered with [response].
    Every entry of the response is decoded before the first is picked:
    an entry that fails the length check, the first or any later one,
    makes the call fail with the length error.  A response without
    entries makes the call return [undefined].  When every entry passes
    the check, the call returns the bundle of the first entry alone: the
    query document, and one ranked result per neighbour id of that entry,
    in order, with the fields and the distance the response has for
    entry 0. *)
Theorem queryDocuments_first_entry
    env collection params h queryDocs σ1 docsWithEmbeddings h2 response :
  isArray (query params) = false ->
  mapDocQueryToQueryDoc (toArray (query params)) (objects h)
  = (queryDocs, σ1) ->
  run env (computeEmbeddings (length (arrays h))
             (withQueryDocs h queryDocs σ1))
  = Ok (docsWithEmbeddings, h2) ->
  getNearestNeighbors env (collection_id collection)
    (queryRequest params h2 docsWithEmbeddings) = Ok response ->
  (forall index ids0,
     response_ids response !! index = Some ids0 ->
     lengthMismatch (responseEntry response index ids0) ->
     run env (queryDocuments collection params h)
     = Throw (Error lengthMismatchMessage))
  /\ (response_ids response = [] ->
      run env (queryDocuments collection params h)
      = Ok (SingleResult None, h2))
  /\ ((forall index ids0,
         response_ids response !! index = Some ids0 ->
         ~ lengthMismatch (responseEntry response index ids0)) ->
      forall ids0 rest,
        response_ids response = ids0 :: rest ->
        exists bundle,
          run env (queryDocuments collection params h)
          = Ok (SingleResult (Some bundle), h2)
          /\ queryDoc bundle = queryDocs !! 0
          /\ length (results bundle) = length ids0
          /\ forall j id0, ids0 !! j = Some id0 ->
               results bundle !! j =
                 Some {| doc :=
                           {| id := Some id0;
                              embedding :=
                                atIndex (atIndex (response_embeddings response) 0) j;
                              metadata :=
                                optIndex (atIndex (response_metadatas response) 0) j;
                              contents :=
                                optIndex (atIndex (response_documents response) 0) j |};
                         distance := distanceAt response 0 j |}).
Proof.
  intros Harray Hnorm Hresolve Hapi.
  rewrite (queryDocuments_run_response _ _ _ _ _ _ _ _ _
             Hnorm Hresolve Hapi).
  unfold shapeResult. rewrite Harray. split; [|split].
  - intros index ids0 Hi Hmis.
    by rewrite (multiQueryResult_Throw queryDocs _ _ _ Hi Hmis).
  - intros Hnil. unfold multiQueryResult. by rewrite Hnil.
  - intros Hcheck ids0 rest Hids.
    destruct (proj2 (multiQueryResult_Ok_iff queryDocs response) Hcheck)
      as [rs Hrs].
    destruct (multiQueryResult_lookup queryDocs response rs 0 ids0 Hrs)
      as (bundle & Hb & Hqd & Hlenb & Hres); [by rewrite Hids|].
    exists bundle. rewrite Hrs. cbn. rewrite Hb. done.
Qed.

Lemma queryDocuments_first_entry_witness :
  (exists bundle,
     run (uniformEnvironment [1%float] twoEntryResponse)
       (queryDocuments testCollection (queryOnly (Single (QueryText "doc1")))
          emptyHeap)
     = Ok (SingleResult (Some bundle),
           oneArray [withEmbedding (Some [1%float]) (contentsDoc "doc1")])
     /\ queryDoc bundle = Some (DocRef 0)
     /\ length (results bundle) = 1)
  /\ run (uniformEnvironment [1%float] malformedSecondEntry)
       (queryDocuments testCollection (queryOnly (Single (QueryText "doc1")))
          emptyHeap)
     = Throw (Error lengthMismatchMessage).
Proof.
  split.
  - destruct (queryDocuments_first_entry
                (uniformEnvironment [1%float] twoEntryResponse)
                testCollection (queryOnly (Single (QueryText "doc1")))
                emptyHeap
                [DocRef 0] [contentsDoc "doc1"] 0
                (oneArray [withEmbedding (Some [1%float])
                             (contentsDoc "doc1")])
                twoEntryResponse
                eq_refl eq_refl eq_refl eq_refl) as (_ & _ & Hfirst).
    destruct (Hfirst
                ltac:(intros index ids0 Hi;
                      destruct index as [|[|index]]; cbn in Hi;
                        [| |discriminate];
                      injection Hi as <-; unfold lengthMismatch; cbn;
                      intros [(a & [=] & _)
                             | [(a & [= <-] & Hne) | (a & [= <-] & Hne)]];
                      by apply Hne)
                ["doc1"] [["doc2"; "doc1"]] eq_refl)
      as (bundle & Hrun & Hqd & Hlen & _).
    exists bundle. split; [exact Hrun|]. split; [exact Hqd | exact Hlen].
  - destruct (queryDocuments_first_entry
                (uniformEnvironment [1%float] malformedSecondEntry)
                testCollection (queryOnly (Single (QueryText "doc1")))
                emptyHeap
                [DocRef 0] [contentsDoc "doc1"] 0
                (oneArray [withEmbedding (Some [1%float])
                             (contentsDoc "doc1")])
                malformedSecondEntry
                eq_refl eq_refl eq_refl eq_refl) as (Hfails & _).
    apply (Hfails 1 ["doc2"; "doc1"] eq_refl).
    right. left. exists [Some "doc2"]. split; [reflexivity|].
    cbn. lia.
Defined.

(** A query given as an explicit query document with contents and no
    embedding is resolved in the caller's own object: after the call that
    object carries the first vector of the capability's answer, and it is
    the query document of the bundle. *)
Theorem queryDocuments_writes_query_object env collection params h l d s r h' :
  query params = Single (QueryObject l) ->
  objects h !! l = Some d ->
  embedding d = None -> contents d = Some s -> s <> "" ->
  run env (queryDocuments collection params h) = Ok (r, h') ->
  exists es,
    generate env [Some s] = Ok es
    /\ objects h' !! l = Some (withEmbedding (es !! 0) d)
    /\ forall bundle,
         r = SingleResult (Some bundle) -> queryDoc bundle = Some (DocRef l).
Proof.
  intros Hq Hl He Hc Hs Hrun.
  assert (Hnorm : mapDocQueryToQueryDoc (toArray (query params)) (objects h)
                  = ([DocRef l], objects h)) by by rewrite Hq.
  rewrite (queryDocuments_run _ _ _ _ _ _ Hnorm) in Hrun.
  destruct (run env (computeEmbeddings _ _)) as [[a h2]|e] eqn:Hres;
    [|discriminate].
  cbn in Hrun.
  destruct (getNearestNeighbors env _ _) as [response|e]; [|discriminate].
  cbn in Hrun.
  destruct (multiQueryResult [DocRef l] response) as [rs|e] eqn:Hrs;
    [|discriminate].
  cbn in Hrun. injection Hrun as <- <-.
  apply computeEmbeddings_run_inv in Hres as (_ & _ & Hcases).
  unfold arrayElements in Hcases. cbn in Hcases.
  rewrite list_lookup_middle in Hcases by done. cbn in Hcases.
  assert (Hmiss : missingEmbedding (objects h) (DocRef l) = true).
  { apply missingEmbedding_true. cbn. by rewrite Hl. }
  rewrite Hmiss in Hcases.
  destruct Hcases as [[[=] _] | (_ & es & Hes & ->)].
  cbn in Hes. rewrite Hl in Hes. cbn in Hes. rewrite Hc in Hes.
  exists es. split; [exact Hes|]. cbn. split.
  - by rewrite list_lookup_alter_eq, Hl.
  - intros bundle. rewrite Hq. unfold shapeResult. cbn. intros [= Hb].
    pose proof Hrs as Hinv. unfold multiQueryResult in Hinv.
    apply mapResult_Ok_inv in Hinv as [Hlen _].
    destruct (lookup_lt_is_Some_2 (response_ids response) 0) as [ids0 Hids].
    { rewrite <- Hlen. by apply lookup_lt_Some in Hb. }
    destruct (multiQueryResult_lookup _ _ _ _ _ Hrs Hids)
      as (bundle' & Hb' & Hqd & _).
    assert (bundle' = bundle) as -> by congruence.
    by rewrite Hqd.
Qed.

Lemma queryDocuments_writes_query_object_witness :
  exists es,
    generate (uniformEnvironment [1%float] twoEntryResponse) [Some "x"]
    = Ok es
    /\ [withEmbedding (Some [1%float]) (contentsDoc "x")] !! 0
       = Some (withEmbedding (es !! 0) (contentsDoc "x")).
Proof.
  destruct (queryDocuments_writes_query_object
              (uniformEnvironment [1%float] twoEntryResponse)
              testCollection (queryOnly (Single (QueryObject 0)))
              {| objects := [contentsDoc "x"]; arrays := [] |}
              0 (contentsDoc "x") "x" _ _
              eq_refl eq_refl eq_refl eq_refl ltac:(discriminate) eq_refl)
    as (es & Hes & Hobj & _).
  exists es. split; [exact Hes | exact Hobj].
Defined.

End fan_in.

(** ** The write path and the read path *)

Section write_read.

Implicit Types (σ : store) (h : heap) (docs : list DocValue).

(** A successful [computeEmbeddings] keeps the id, the contents and the
    metadata that any element reads. *)
Lemma resolved_keeps_fields env a h r h' doc :
  run env (computeEmbeddings a h) = Ok (r, h') ->
  getField id (objects h') doc = getField id (objects h) doc
  /\ getField contents (objects h') doc = getField contents (objects h) doc
  /\ getField metadata (objects h') doc = getField metadata (objects h) doc.
Proof.
  intros (-> & _ & [[_ ->] | (_ & es & _ & ->)])%computeEmbeddings_run_inv;
    [done|].
  destruct doc as [l|n]; [|done]. cbn.
  destruct (objects h !! l) as [d|] eqn:Hl.
  - destruct (assignEmbeddings_fields
                (List.filter (missingEmbedding (objects h)) (arrayElements h a))
                (objects h) es 0 l d Hl) as (d' & -> & Hi & Hc & Hm).
    cbn. by rewrite Hi, Hc, Hm.
  - rewrite lookup_ge_None_2; [done|].
    rewrite length_assignEmbeddings. by apply lookup_ge_None_1.
Qed.

(** The columns encoded from the resolved documents. *)
Lemma resolved_columns env a h r h' docs :
  arrays h !! a = Some docs ->
  run env (computeEmbeddings a h) = Ok (r, h') ->
  docsToParallelArrays (readDoc (objects h') <$> arrayElements h' r)
  = Ok {| ids := getField id (objects h) <$> docs;
          embeddings := Some (getField embedding (objects h') <$> docs);
          documents := Some (getField contents (objects h) <$> docs);
          metadatas := Some (getField metadata (objects h) <$> docs) |}.
Proof.
  intros Ha Hrun.
  destruct (computeEmbeddings_returns_argument _ _ _ _ _ Hrun) as [-> Harr].
  unfold arrayElements. rewrite Harr, Ha. cbn.
  rewrite docsToParallelArrays_columns, <- !list_fmap_compose.
  assert (Hi : (id ∘ readDoc (objects h')) <$> docs
               = getField id (objects h) <$> docs).
  { apply list_fmap_ext. intros i doc _. cbn.
    by destruct (resolved_keeps_fields env a h a h' doc Hrun) as (? & ? & ?). }
  assert (Hc : (contents ∘ readDoc (objects h')) <$> docs
               = getField contents (objects h) <$> docs).
  { apply list_fmap_ext. intros i doc _. cbn.
    by destruct (resolved_keeps_fields env a h a h' doc Hrun) as (? & ? & ?). }
  assert (Hm : (metadata ∘ readDoc (objects h')) <$> docs
               = getField metadata (objects h) <$> docs).
  { apply list_fmap_ext. intros i doc _. cbn.
    by destruct (resolved_keeps_fields env a h a h' doc Hrun) as (? & ? & ?). }
  assert (He : (embedding ∘ readDoc (objects h')) <$> docs
               = getField embedding (objects h') <$> docs).
  { by apply list_fmap_ext. }
  by rewrite Hi, Hc, Hm, He.
Qed.

(** Once the resolver has returned, [addDocuments] and [setDocuments] make
    one request each, and with the same body: one row per element of the
    array, in order and without dropping a repeated id, whose id, contents
    and metadata are those the caller gave and whose embedding is the one
    the document has after the resolution.  The outcome of the call is the
    outcome of that request. *)
Theorem write_sends_every_row env collection a h r h' docs :
  arrays h !! a = Some docs ->
  run (resolver env) (computeEmbeddings a h) = Ok (r, h') ->
  exists body,
    ids body = getField id (objects h) <$> docs
    /\ embeddings body = Some (getField embedding (objects h') <$> docs)
    /\ documents body = Some (getField contents (objects h) <$> docs)
    /\ metadatas body = Some (getField metadata (objects h) <$> docs)
    /\ apiCalls env (addDocuments collection a h)
       = [CallAdd (collection_id collection) body]
    /\ runClient env (addDocuments collection a h)
       = result_bind (add env (collection_id collection) body)
           (fun answer => Ok (answer, h'))
    /\ apiCalls env (setDocuments collection a h)
       = [CallUpsert (collection_id collection) body]
    /\ runClient env (setDocuments collection a h)
       = result_bind (upsert env (collection_id collection) body)
           (fun answer => Ok (answer, h')).
Proof.
  intros Ha Hrun. eexists. repeat split; cycle 4.
  - unfold addDocuments. cbn. rewrite Hrun.
    rewrite (resolved_columns _ _ _ _ _ _ Ha Hrun). cbn.
    by destruct (add env _ _).
  - unfold addDocuments. cbn. rewrite Hrun.
    rewrite (resolved_columns _ _ _ _ _ _ Ha Hrun). cbn.
    by destruct (add env _ _).
  - unfold setDocuments. cbn. rewrite Hrun.
    rewrite (resolved_columns _ _ _ _ _ _ Ha Hrun). cbn.
    by destruct (upsert env _ _).
  - unfold setDocuments. cbn. rewrite Hrun.
    rewrite (resolved_columns _ _ _ _ _ _ Ha Hrun). cbn.
    by destruct (upsert env _ _).
  - reflexivity.
  - reflexivity.
  - reflexivity.
  - reflexivity.
Qed.

Lemma write_sends_every_row_witness :
  exists body,
    ids body = [Some "a"; Some "b"; Some "a"]
    /\ embeddings body = Some [Some [2%float]; Some [7%float]; Some [2%float]]
    /\ apiCalls
         (acceptingClient (uniformEnvironment [2%float] emptyResponse)
            {| got_ids := []; got_embeddings := None; got_documents := None;
               got_metadatas := None; got_error := None; got_included := [] |})
         (addDocuments testCollection 0
            {| objects := [textDoc "a" "x";
                           withEmbedding (Some [7%float]) (textDoc "b" "y")];
               arrays := [[DocRef 0; DocRef 1; DocRef 0]] |})
       = [CallAdd "c0" body].
Proof.
  destruct (write_sends_every_row
              (acceptingClient (uniformEnvironment [2%float] emptyResponse)
                 {| got_ids := []; got_embeddings := None;
                    got_documents := None; got_metadatas := None;
                    got_error := None; got_included := [] |})
              testCollection 0
              {| objects := [textDoc "a" "x";
                             withEmbedding (Some [7%float]) (textDoc "b" "y")];
                 arrays := [[DocRef 0; DocRef 1; DocRef 0]] |}
              _ _ [DocRef 0; DocRef 1; DocRef 0] eq_refl eq_refl)
    as (body & Hids & Hemb & _ & _ & Hcalls & _).
  exists body. split; [exact Hids|]. split; [exact Hemb | exact Hcalls].
Defined.

(** A document that fails the validation keeps [addDocuments] and
    [setDocuments] from sending anything: the call throws the
    missing-content error and no request is made. *)
Theorem write_rejected_sends_nothing env collection a h docs doc :
  arrays h !! a = Some docs ->
  doc ∈ docs ->
  withoutContentsOrEmbedding (objects h) doc = true ->
  (exists ids0,
     runClient env (addDocuments collection a h)
     = Throw (Error (missingContentPrefix +:+ join ", " ids0))
     /\ runClient env (setDocuments collection a h)
        = Throw (Error (missingContentPrefix +:+ join ", " ids0)))
  /\ apiCalls env (addDocuments collection a h) = []
  /\ apiCalls env (setDocuments collection a h) = [].
Proof.
  intros Ha Hin Hrej.
  destruct (rejected_raises h a docs doc Ha Hin Hrej) as [_ Hraise].
  unfold addDocuments, setDocuments. cbn. rewrite Hraise. cbn.
  split; [by eexists | done].
Qed.

Lemma write_rejected_sends_nothing_witness :
  apiCalls
    (acceptingClient (uniformEnvironment [2%float] emptyResponse)
       {| got_ids := []; got_embeddings := None; got_documents := None;
          got_metadatas := None; got_error := None; got_included := [] |})
    (addDocuments testCollection 0 (oneArray [textDoc "a" "x"; emptyDoc]))
  = [].
Proof.
  refine (proj1 (proj2 (write_rejected_sends_nothing _ testCollection 0
    (oneArray [textDoc "a" "x"; emptyDoc]) [DocRef 0; DocRef 1] (DocRef 1)
    eq_refl _ eq_refl))).
  apply list_elem_of_further, list_elem_of_here.
Defined.

Lemma all_present {A} (l : list (option A)) :
  (forall x, x ∈ l -> is_Some x) -> exists xs, l = Some <$> xs.
Proof.
  induction l as [|x l IH]; intros Hall.
  - by exists [].
  - destruct (Hall x (list_elem_of_here _ _)) as [y ->].
    destruct IH as [xs ->].
    { intros z Hz. apply Hall. by apply list_elem_of_further. }
    by exists (y :: xs).
Qed.

(** With a capability that answers every text, no row goes to the server
    without an embedding: the [embeddings] column of the one request of
    [addDocuments] and of [setDocuments] holds a vector for every
    document. *)
Theorem write_rows_are_embedded env collection a h r h' docs :
  arrays h !! a = Some docs ->
  answersEveryText (resolver env) ->
  run (resolver env) (computeEmbeddings a h) = Ok (r, h') ->
  exists body es,
    apiCalls env (addDocuments collection a h)
    = [CallAdd (collection_id collection) body]
    /\ apiCalls env (setDocuments collection a h)
       = [CallUpsert (collection_id collection) body]
    /\ embeddings body = Some (Some <$> es)
    /\ length es = length docs.
Proof.
  intros Ha Hcontract Hrun.
  destruct (all_present (getField embedding (objects h') <$> docs))
    as [es Hes].
  { intros x (doc & -> & Hin)%list_elem_of_fmap.
    by eapply resolved_all_embedded. }
  exists {| ids := getField id (objects h) <$> docs;
            embeddings := Some (getField embedding (objects h') <$> docs);
            documents := Some (getField contents (objects h) <$> docs);
            metadatas := Some (getField metadata (objects h) <$> docs) |}, es.
  split; [|split; [|split]].
  - unfold addDocuments. cbn. rewrite Hrun.
    rewrite (resolved_columns _ _ _ _ _ _ Ha Hrun). cbn.
    by destruct (add env _ _).
  - unfold setDocuments. cbn. rewrite Hrun.
    rewrite (resolved_columns _ _ _ _ _ _ Ha Hrun). cbn.
    by destruct (upsert env _ _).
  - cbn. by rewrite Hes.
  - apply (f_equal length) in Hes. by rewrite !length_fmap in Hes.
Qed.

Lemma write_rows_are_embedded_witness :
  exists body es,
    apiCalls
      (acceptingClient (uniformEnvironment [2%float] emptyResponse)
         {| got_ids := []; got_embeddings := None; got_documents := None;
            got_metadatas := None; got_error := None; got_included := [] |})
      (setDocuments testCollection 0
         (oneArray [textDoc "a" "x"; textDoc "b" "y"]))
    = [CallUpsert "c0" body]
    /\ embeddings body = Some (Some <$> es)
    /\ length es = 2.
Proof.
  destruct (write_rows_are_embedded
              (acceptingClient (uniformEnvironment [2%float] emptyResponse)
                 {| got_ids := []; got_embeddings := None;
                    got_documents := None; got_metadatas := None;
                    got_error := None; got_included := [] |})
              testCollection 0
              (oneArray [textDoc "a" "x"; textDoc "b" "y"])
              _ _ [DocRef 0; DocRef 1] eq_refl
              (uniformEnvironment_answers _ _) eq_refl)
    as (body & es & _ & Hset & Hemb & Hlen).
  by exists body, es.
Defined.

(** The [ids] option of [getDocuments] is tested for truthiness: an empty
    string is dropped, so that the request is the one of a call without
    [ids] and so is the outcome; any other single id is sent as a
    one-element list, and a list is sent as it is, also when empty. *)
Theorem getDocuments_ids env collection params :
  (get_ids params = Some (OneId "") ->
   request_ids (getRequest params) = None
   /\ runClient env (getDocuments collection params)
      = runClient env
          (getDocuments collection
             {| get_ids := None; get_where := get_where params;
                get_limit := get_limit params;
                get_offset := get_offset params;
                get_include := get_include params;
                get_whereDocument := get_whereDocument params |}))
  /\ (forall s, get_ids params = Some (OneId s) -> s <> "" ->
      request_ids (getRequest params) = Some [s])
  /\ (forall l, get_ids params = Some (ManyIds l) ->
      request_ids (getRequest params) = Some l)
  /\ apiCalls env (getDocuments collection params)
     = [CallGet (collection_id collection) (getRequest params)].
Proof.
  split; [|split; [|split]].
  - intros Hids. unfold getDocuments, getRequest. by rewrite Hids.
  - intros s Hids Hs. unfold getRequest. rewrite Hids. cbn.
    apply String.eqb_neq in Hs. by rewrite Hs.
  - intros l Hids. unfold getRequest. by rewrite Hids.
  - unfold getDocuments. cbn. destruct (aGet env _ _) as [response|e]; [|done].
    by destruct (parallelArraysToDocs _).
Qed.

(** What the write path sends comes back through the read path: when the
    server answers a get with the columns of the body that [addDocuments]
    sent, [getDocuments] returns the documents of the array, in order, as
    they are after the resolution. *)
Theorem write_then_read env collection params a h r h' docs :
  arrays h !! a = Some docs ->
  run (resolver env) (computeEmbeddings a h) = Ok (r, h') ->
  exists body,
    apiCalls env (addDocuments collection a h)
    = [CallAdd (collection_id collection) body]
    /\ forall response,
         aGet env (collection_id collection) (getRequest params)
         = Ok response ->
         holdsColumns response body ->
         runClient env (getDocuments collection params)
         = Ok (readDoc (objects h') <$> docs).
Proof.
  intros Ha Hrun.
  pose proof (resolved_columns _ _ _ _ _ _ Ha Hrun) as Hcols.
  destruct (computeEmbeddings_returns_argument _ _ _ _ _ Hrun) as [-> Harr].
  assert (Hdocs : arrayElements h' a = docs).
  { unfold arrayElements. by rewrite Harr, Ha. }
  rewrite Hdocs in Hcols.
  eexists. split.
  - unfold addDocuments. cbn. rewrite Hrun, Hdocs, Hcols. cbn.
    by destruct (add env _ _).
  - intros response Hresp Hholds. unfold getDocuments. cbn.
    rewrite Hresp. unfold holdsColumns in Hholds. rewrite Hholds.
    rewrite docsToParallelArrays_columns in Hcols. injection Hcols as <- <- <- <-.
    by rewrite decode_columns.
Qed.

Lemma write_then_read_witness :
  runClient
    (acceptingClient (uniformEnvironment [2%float] emptyResponse)
       {| got_ids := ["a"]; got_embeddings := Some [[2%float]];
          got_documents := Some [Some "x"]; got_metadatas := Some [None];
          got_error := None; got_included := [] |})
    (getDocuments testCollection (getByIds None))
  = Ok [withEmbedding (Some [2%float]) (textDoc "a" "x")].
Proof.
  destruct (write_then_read
              (acceptingClient (uniformEnvironment [2%float] emptyResponse)
                 {| got_ids := ["a"]; got_embeddings := Some [[2%float]];
                    got_documents := Some [Some "x"];
                    got_metadatas := Some [None];
                    got_error := None; got_included := [] |})
              testCollection (getByIds None) 0
              (oneArray [textDoc "a" "x"]) _ _ [DocRef 0] eq_refl eq_refl)
    as (body & Hcalls & Hread).
  injection Hcalls as <-.
  exact (Hread _ eq_refl eq_refl).
Defined.

End write_read.
